(** * http-sig: a shallow embedding of the signature engine

    The development follows the layout of the TypeScript package
    [packages/http-sig/src]: [types.ts], [MessageContext.ts], [Signature.ts],
    [SignatureKey.ts], [HmacSignatureKey.ts] and [SignatureKeyManager.ts].

    Conventions of the embedding.
    - A JavaScript string is a [string]: a sequence of code units below 256
      (the range Node's HTTP parser produces for header text).
    - A [Buffer] is a [list byte].
    - [undefined] is [None]; a thrown exception is [Err e].
    - An index that JavaScript reports as [-1] is the integer [-1] in [Z]. *)

From Stdlib Require Import ZArith NArith List String Ascii Bool Lia.
From Stdlib.Strings Require Import Byte.
From Stdlib Require Import DecimalString.
From Stdlib.Floats Require Import SpecFloat.
From stdpp Require Import base gmap strings.
Import ListNotations.

Local Open Scope string_scope.
Local Open Scope list_scope.
Local Open Scope stdpp_scope.

(* ================================================================== *)
(** * types.ts: the error taxonomy *)
(* ================================================================== *)

(** [VerificationError] and [ConfigurationError] are the two classes of
    [types.ts]; [RangeError] and [TypeError] are the platform exceptions
    that the modelled code can let escape. *)
Inductive Error : Type :=
| VerificationError (msg : string)
| ConfigurationError (msg : string)
| RangeError (msg : string)
| TypeError (msg : string).

Inductive Result (A : Type) : Type :=
| Ok (a : A)
| Err (e : Error).
Arguments Ok {A} a.
Arguments Err {A} e.

#[global] Instance Result_ret : MRet Result := fun A a => Ok a.

#[global] Instance Result_bind : MBind Result := fun A B k r =>
  match r with
  | Ok a => k a
  | Err e => Err e
  end.

(** [Array.prototype.map] with a callback that may throw: elements are
    visited left to right and the first exception escapes. *)
Fixpoint mapR {A B} (f : A -> Result B) (l : list A) : Result (list B) :=
  match l with
  | [] => Ok []
  | a :: l' => b ← f a; bs ← mapR f l'; Ok (b :: bs)
  end.

Definition isOk {A} (r : Result A) : bool :=
  match r with
  | Ok _ => true
  | Err _ => false
  end.

Definition isVerificationError {A} (r : Result A) : bool :=
  match r with
  | Err (VerificationError _) => true
  | _ => false
  end.

(* ================================================================== *)
(** * The JavaScript string primitives the package uses *)
(* ================================================================== *)

Module Js.

Definition code (c : ascii) : N := N_of_ascii c.

Definition chr (n : N) : ascii := ascii_of_N n.

(** The characters spelled with an escape in the sources. *)
Definition DQUOTE : ascii := chr 34.
Definition LF : ascii := chr 10.
Definition TAB : ascii := chr 9.

Definition between (lo hi n : N) : bool := ((lo <=? n) && (n <=? hi))%N.

(** Code units with a lower-case mapping, for code units below 256:
    A-Z, and U+00C0..U+00DE except the multiplication sign U+00D7. *)
Definition isUpper (c : ascii) : bool :=
  between 65 90 (code c) || (between 192 222 (code c) && negb (code c =? 215)%N).

Definition lowerChar (c : ascii) : ascii :=
  if isUpper c then chr (code c + 32) else c.

(** [String.prototype.toLowerCase]. *)
Fixpoint toLowerCase (s : string) : string :=
  match s with
  | EmptyString => EmptyString
  | String c s' => String (lowerChar c) (toLowerCase s')
  end.

(** White space and line terminators below 256: what [trimEnd] strips
    and what the regular expression class [\s] matches. *)
Definition isWhiteSpace (c : ascii) : bool :=
  between 9 13 (code c) || (code c =? 32)%N || (code c =? 160)%N.

Definition isDigit (c : ascii) : bool := between 48 57 (code c).

Definition isEmpty (s : string) : bool :=
  match s with
  | EmptyString => true
  | String _ _ => false
  end.

(** [String.prototype.trimEnd]. *)
Fixpoint trimEnd (s : string) : string :=
  match s with
  | EmptyString => EmptyString
  | String c s' =>
      let t := trimEnd s' in
      if isWhiteSpace c && isEmpty t then EmptyString else String c t
  end.

(** [Array.prototype.join]. *)
Fixpoint join (sep : string) (l : list string) : string :=
  match l with
  | [] => EmptyString
  | [s] => s
  | s :: l' => s +:+ sep +:+ join sep l'
  end.

(** [String.prototype.split] with a one-character separator. The result
    is never empty: the empty string splits into one empty piece. *)
Fixpoint split (sep : ascii) (s : string) : list string :=
  match s with
  | EmptyString => [EmptyString]
  | String c s' =>
      if Ascii.eqb c sep then EmptyString :: split sep s'
      else match split sep s' with
           | piece :: pieces => String c piece :: pieces
           | [] => [String c EmptyString]
           end
  end.

(** [s.split(sep, limit)]: the first [limit] pieces, the rest dropped. *)
Definition splitLimit (sep : ascii) (limit : nat) (s : string) : list string :=
  firstn limit (split sep s).

(** Index of the first code unit satisfying [p], or [-1]: models
    [s.search(/[class]/)] for a one-character class and [s.indexOf(c)]. *)
Fixpoint search (p : ascii -> bool) (s : string) : Z :=
  match s with
  | EmptyString => (-1)%Z
  | String c s' =>
      if p c then 0%Z
      else let i := search p s' in
           if (i <? 0)%Z then (-1)%Z else (i + 1)%Z
  end.

Definition indexOf (c : ascii) (s : string) : Z := search (Ascii.eqb c) s.

(** [s.lastIndexOf(c)]. *)
Fixpoint lastIndexOf (c : ascii) (s : string) : Z :=
  match s with
  | EmptyString => (-1)%Z
  | String d s' =>
      let i := lastIndexOf c s' in
      if (0 <=? i)%Z then (i + 1)%Z
      else if Ascii.eqb d c then 0%Z else (-1)%Z
  end.

Definition len (s : string) : Z := Z.of_nat (String.length s).

(** [s.slice(start, end)], negative indices counting from the end. *)
Definition slice (s : string) (start stop : Z) : string :=
  let n := len s in
  let from := if (start <? 0)%Z then Z.max (n + start) 0 else Z.min start n in
  let to := if (stop <? 0)%Z then Z.max (n + stop) 0 else Z.min stop n in
  substring (Z.to_nat from) (Z.to_nat (to - from)) s.

(** [s.slice(start)]. *)
Definition sliceFrom (s : string) (start : Z) : string := slice s start (len s).

Definition startsWith (s pre : string) : bool := String.prefix pre s.

Definition endsWith (s suf : string) : bool :=
  String.eqb (slice s (len s - len suf) (len s)) suf
  && (String.length suf <=? String.length s)%nat.

(** [s.replace(/c/g, '')]. *)
Fixpoint removeAll (c : ascii) (s : string) : string :=
  match s with
  | EmptyString => EmptyString
  | String d s' => if Ascii.eqb d c then removeAll c s' else String d (removeAll c s')
  end.

(** [Array.prototype.includes] on an array of strings. *)
Definition includes (l : list string) (s : string) : bool :=
  existsb (String.eqb s) l.

(** Truthiness of a possibly undefined string. *)
Definition truthy (o : option string) : bool :=
  match o with
  | Some s => negb (isEmpty s)
  | None => false
  end.

(** The decimal numeral of a non-negative integer, as a template
    literal prints it. *)
Definition decimal (n : N) : string := NilZero.string_of_uint (N.to_uint n).

Definition quoted (s : string) : string :=
  String DQUOTE (s +:+ String DQUOTE EmptyString).

(** Writes a literal that contains double quotes: every apostrophe of
    [s] stands for a double quote. *)
Fixpoint dq (s : string) : string :=
  match s with
  | EmptyString => EmptyString
  | String c s' => String (if Ascii.eqb c "'" then DQUOTE else c) (dq s')
  end.

End Js.

(* ================================================================== *)
(** * Buffers: UTF-8 and base64, as Node's [Buffer] provides them *)
(* ================================================================== *)

Module Buffer.

Definition t : Type := list byte.

Definition byteOfN (n : N) : byte :=
  match Byte.of_N (n mod 256) with
  | Some b => b
  | None => x00
  end.

(** [Buffer.from(s, 'utf8')] for code units below 256: one byte below
    128, two bytes from 128 on. *)
Fixpoint fromUtf8 (s : string) : t :=
  match s with
  | EmptyString => []
  | String c s' =>
      let n := Js.code c in
      if (n <? 128)%N then byteOfN n :: fromUtf8 s'
      else byteOfN (192 + n / 64) :: byteOfN (128 + n mod 64) :: fromUtf8 s'
  end.

Definition alphabet : string :=
  "ABCDEFGHIJKLMNOPQRSTUVWXYZabcdefghijklmnopqrstuvwxyz0123456789+/".

Definition sextetChar (n : N) : ascii :=
  match String.get (N.to_nat n) alphabet with
  | Some c => c
  | None => "="%char
  end.

(** The three bytes of a group as one 24-bit number. *)
Definition group (a b c : byte) : N :=
  (Byte.to_N a * 65536 + Byte.to_N b * 256 + Byte.to_N c)%N.

Definition sextet (g : N) (i : N) : N := ((g / 64 ^ (3 - i)) mod 64)%N.

(** [buf.toString('base64')]: the standard alphabet, padded with [=]. *)
Fixpoint toBase64 (bs : t) : string :=
  match bs with
  | [] => EmptyString
  | [a] =>
      let g := group a x00 x00 in
      String (sextetChar (sextet g 0)) (String (sextetChar (sextet g 1)) "==")
  | [a; b] =>
      let g := group a b x00 in
      String (sextetChar (sextet g 0)) (String (sextetChar (sextet g 1))
        (String (sextetChar (sextet g 2)) "="))
  | a :: b :: c :: rest =>
      let g := group a b c in
      String (sextetChar (sextet g 0)) (String (sextetChar (sextet g 1))
        (String (sextetChar (sextet g 2)) (String (sextetChar (sextet g 3))
          (toBase64 rest))))
  end.

(** Node's decoding table: both the standard and the URL-safe alphabet. *)
Definition unbase64 (c : ascii) : option N :=
  let n := Js.code c in
  if Js.between 65 90 n then Some (n - 65)%N
  else if Js.between 97 122 n then Some (n - 71)%N
  else if Js.between 48 57 n then Some (n + 4)%N
  else if (n =? 43)%N || (n =? 45)%N then Some 62%N
  else if (n =? 47)%N || (n =? 95)%N then Some 63%N
  else None.

(** Node's lenient reader: characters outside the table are skipped and
    the first [=] ends the input. *)
Fixpoint sextets (s : string) : list N :=
  match s with
  | EmptyString => []
  | String c s' =>
      if Ascii.eqb c "=" then []
      else match unbase64 c with
           | Some v => v :: sextets s'
           | None => sextets s'
           end
  end.

(** A byte is produced as soon as its second sextet has been read. *)
Fixpoint bytesOfSextets (l : list N) : t :=
  match l with
  | s0 :: s1 :: s2 :: s3 :: rest =>
      let g := (((s0 * 64 + s1) * 64 + s2) * 64 + s3)%N in
      byteOfN (g / 65536) :: byteOfN (g / 256) :: byteOfN g :: bytesOfSextets rest
  | [s0; s1; s2] =>
      let g := (((s0 * 64 + s1) * 64 + s2) * 64)%N in
      [byteOfN (g / 65536); byteOfN (g / 256)]
  | [s0; s1] =>
      let g := ((s0 * 64 + s1) * 4096)%N in
      [byteOfN (g / 65536)]
  | _ => []
  end.

(** [Buffer.from(s, 'base64')]. *)
Definition fromBase64 (s : string) : t := bytesOfSextets (sextets s).

Fixpoint eqb (a b : t) : bool :=
  match a, b with
  | [], [] => true
  | x :: a', y :: b' => Byte.eqb x y && eqb a' b'
  | _, _ => false
  end.

(** [crypto.timingSafeEqual]: throws a [RangeError] on buffers of
    different byte length, and otherwise compares them. *)
Definition timingSafeEqual (a b : t) : Result bool :=
  if (List.length a =? List.length b)%nat then Ok (eqb a b)
  else Err (RangeError "Input buffers must have the same byte length").

End Buffer.

(* ================================================================== *)
(** * Numbers and dates *)
(* ================================================================== *)

(** A JavaScript number is a binary64 float, here the specification
    floats of the standard library. *)
Module Number.

Definition t : Type := spec_float.

Definition prec : Z := 53.
Definition emax : Z := 1024.

Definition NaN : t := S754_nan.

(** The number nearest to an integer. *)
Definition ofZ (n : Z) : t := binary_normalize prec emax n 0 false.

Definition mul (x y : t) : t := SFmul prec emax x y.
Definition div (x y : t) : t := SFdiv prec emax x y.

(** [Math.floor], as the integer it denotes; [None] for NaN and the
    infinities. *)
Definition floor (x : t) : option Z :=
  match x with
  | S754_zero _ => Some 0%Z
  | S754_finite s m e =>
      let v := if s then Z.neg m else Z.pos m in
      Some (if (0 <=? e)%Z then v * 2 ^ e else v / 2 ^ (- e))%Z
  | _ => None
  end.

Fixpoint digitsValue (acc : Z) (s : string) : Z :=
  match s with
  | EmptyString => acc
  | String c s' => digitsValue (10 * acc + Z.of_N (Js.code c - 48)) s'
  end.

Fixpoint takeDigits (s : string) : string :=
  match s with
  | EmptyString => EmptyString
  | String c s' => if Js.isDigit c then String c (takeDigits s') else EmptyString
  end.

Fixpoint dropDigits (s : string) : string :=
  match s with
  | EmptyString => EmptyString
  | String c s' => if Js.isDigit c then dropDigits s' else s
  end.

(** [parseInt(s)] on a string that starts with its digits: the number
    nearest to the decimal numeral, [NaN] when there is no digit. *)
Definition parseInt (s : string) : t :=
  let ds := takeDigits s in
  if Js.isEmpty ds then NaN else ofZ (digitsValue 0 ds).

(** [parseFloat(s)] on a string that starts with digits and points: the
    longest prefix [digits], [digits.digits], [digits.] or [.digits] is
    read and the decimal it denotes is rounded to the nearest number. *)
Definition parseFloat (s : string) : t :=
  let ip := takeDigits s in
  let fp := match dropDigits s with
            | String "." r => takeDigits r
            | _ => EmptyString
            end in
  if Js.isEmpty ip && Js.isEmpty fp then NaN
  else div (ofZ (digitsValue 0 (ip +:+ fp)))
           (ofZ (10 ^ Z.of_nat (String.length fp))).

End Number.

Module Date.

(** A [Date] holds a time value in milliseconds since the epoch, or is
    invalid (its time value is NaN). *)
Inductive t : Type :=
| Instant (ms : Z)
| Invalid.

Definition MAX_TIME : Z := 8640000000000000.

(** [new Date(Math.floor(x))]: the time value is clipped to the range
    of [Date]. *)
Definition ofFloor (x : Number.t) : t :=
  match Number.floor x with
  | Some ms => if (Z.abs ms <=? MAX_TIME)%Z then Instant ms else Invalid
  | None => Invalid
  end.

(** [d.valueOf()], with [None] for NaN. *)
Definition valueOf (d : t) : option Z :=
  match d with
  | Instant ms => Some ms
  | Invalid => None
  end.

(** [a.valueOf() - b.valueOf() < slack]; a comparison with NaN is false. *)
Definition diffBelow (a b : t) (slack : Z) : bool :=
  match valueOf a, valueOf b with
  | Some x, Some y => (x - y <? slack)%Z
  | _, _ => false
  end.

End Date.

(* ================================================================== *)
(** * types.ts: the enumerations *)
(* ================================================================== *)

Inductive SignatureAlgorithm : Type := HS2019 | RSA_SHA256 | HMAC_SHA256 | ECDSA_SHA256.

Inductive HmacAlgorithm : Type := HMAC_SHA256_ALG | HMAC_SHA512_ALG.

Inductive DigestAlgorithm : Type := SHA256 | SHA512.

Module Enum.

(** The string value of each enumeration member. *)
Definition signatureAlgorithm (a : SignatureAlgorithm) : string :=
  match a with
  | HS2019 => "hs2019"
  | RSA_SHA256 => "rsa-sha256"
  | HMAC_SHA256 => "hmac-sha256"
  | ECDSA_SHA256 => "ecdsa-sha256"
  end.

Definition hmacAlgorithm (a : HmacAlgorithm) : string :=
  match a with
  | HMAC_SHA256_ALG => "hmac-sha256"
  | HMAC_SHA512_ALG => "hmac-sha512"
  end.

Definition digestAlgorithm (a : DigestAlgorithm) : string :=
  match a with
  | SHA256 => "SHA-256"
  | SHA512 => "SHA-512"
  end.

(** [Object.values(SignatureAlgorithm)], in declaration order. *)
Definition signatureAlgorithms : list SignatureAlgorithm :=
  [HS2019; RSA_SHA256; HMAC_SHA256; ECDSA_SHA256].

Definition signatureAlgorithmEqb (a b : SignatureAlgorithm) : bool :=
  String.eqb (signatureAlgorithm a) (signatureAlgorithm b).

End Enum.

(* ================================================================== *)
(** * Signature.ts *)
(* ================================================================== *)

Module Signature.

Definition EXPIRES_SLACK : Z := 60000.
Definition CREATED_SLACK : Z := 60000.

Definition MSG_MALFORMED : string := "malformed signature string".

Definition DQ : string := String Js.DQUOTE EmptyString.

Definition parseStringField (value : string) : Result string :=
  if negb (Js.startsWith value DQ) || negb (Js.endsWith value DQ)
  then Err (VerificationError MSG_MALFORMED)
  else Ok (Js.slice value 1 (-1)).

Definition parseIntField (value : string) : Result Number.t :=
  if negb (Js.search (fun c => negb (Js.isDigit c)) value =? -1)%Z
  then Err (VerificationError MSG_MALFORMED)
  else if Js.startsWith value "0" && negb (String.eqb value "0")
  then Err (VerificationError MSG_MALFORMED)
  else Ok (Number.parseInt value).

Definition parseDecimalField (value : string) : Result Number.t :=
  if negb (Js.search (fun c => negb (Js.isDigit c || Ascii.eqb c ".")) value =? -1)%Z
  then Err (VerificationError MSG_MALFORMED)
  else
    let firstDecimalIdx := Js.indexOf "." value in
    let lastDecimalIdx := Js.lastIndexOf "." value in
    if (firstDecimalIdx =? 0)%Z || (lastDecimalIdx =? Js.len value - 1)%Z
    then Err (VerificationError MSG_MALFORMED)
    else if Js.startsWith value "0" && (1 <? Js.len value)%Z
              && negb (firstDecimalIdx =? 1)%Z
    then Err (VerificationError MSG_MALFORMED)
    else if negb (firstDecimalIdx =? lastDecimalIdx)%Z
    then Err (VerificationError MSG_MALFORMED)
    else Ok (Number.parseFloat value).

(** The body of [pairs.forEach] in [pairsToMap]: one pair is added to
    the map being built. *)
Definition addPair (out : gmap string string) (pair : string)
  : Result (gmap string string) :=
  let eqLocation := Js.indexOf "=" pair in
  if (eqLocation <? 0)%Z
  then Err (VerificationError "malformed signature string (missing `=` in field)")
  else
    let key := Js.slice pair 0 eqLocation in
    let value := Js.sliceFrom pair (eqLocation + 1) in
    if Js.isEmpty key || Js.isEmpty value
       || negb (Js.search Js.isWhiteSpace key =? -1)%Z
    then Err (VerificationError MSG_MALFORMED)
    else if bool_decide (is_Some (out !! key))
    then Err (VerificationError ("duplicated field " +:+ key +:+ " present in signature"))
    else Ok (<[key := value]> out).

Fixpoint forEachPair (out : gmap string string) (pairs : list string)
  : Result (gmap string string) :=
  match pairs with
  | [] => Ok out
  | p :: rest => out1 ← addPair out p; forEachPair out1 rest
  end.

Definition pairsToMap (pairs : list string) : Result (gmap string string) :=
  forEachPair ∅ pairs.

Definition getKeyId (fieldMap : gmap string string) : Result string :=
  if Js.truthy (fieldMap !! "keyId")
  then parseStringField (default EmptyString (fieldMap !! "keyId"))
  else Err (VerificationError "required field `keyId` not present in signature").

Definition getSignatureAlgorithm (fieldMap : gmap string string)
  : Result (option SignatureAlgorithm) :=
  if Js.truthy (fieldMap !! "algorithm") then
    algorithm ← parseStringField (default EmptyString (fieldMap !! "algorithm"));
    match List.find (fun a => String.eqb (Enum.signatureAlgorithm a) algorithm)
                    Enum.signatureAlgorithms with
    | Some a => Ok (Some a)
    | None =>
        Err (VerificationError
               ("signature algorithm `" +:+ algorithm +:+ "` is not supported"))
    end
  else Ok None.

Definition DEFAULT_HEADERS : list string := ["(created)"].

Definition getHeaders (fieldMap : gmap string string) : Result (list string) :=
  if Js.truthy (fieldMap !! "headers") then
    unquoted ← parseStringField (default EmptyString (fieldMap !! "headers"));
    let headers := List.map Js.toLowerCase (Js.split " " unquoted) in
    if existsb (fun s => Js.isEmpty s || negb (Js.search Js.isWhiteSpace s =? -1)%Z)
               headers
    then Err (VerificationError "malformed header list in signature string")
    else Ok headers
  else Ok DEFAULT_HEADERS.

Definition getSignature (fieldMap : gmap string string) : Result Buffer.t :=
  if Js.truthy (fieldMap !! "signature") then
    signatureStr ← parseStringField (default EmptyString (fieldMap !! "signature"));
    let signature := Buffer.fromBase64 signatureStr in
    let unpaddedSignatureString := Js.removeAll "=" signatureStr in
    if negb (Js.len unpaddedSignatureString * 3 / 4
             =? Z.of_nat (List.length signature))%Z
       || (List.length signature =? 0)%nat
    then Err (VerificationError "invalid base64 string provided in signature")
    else Ok signature
  else Err (VerificationError "required field `signature` not present in signature").

Definition getCreated (fieldMap : gmap string string) : Result (option Date.t) :=
  if Js.truthy (fieldMap !! "created") then
    createdNum ← parseIntField (default EmptyString (fieldMap !! "created"));
    Ok (Some (Date.ofFloor (Number.mul createdNum (Number.ofZ 1000))))
  else Ok None.

Definition getExpires (fieldMap : gmap string string) : Result (option Date.t) :=
  if Js.truthy (fieldMap !! "expires") then
    expiresNum ← parseDecimalField (default EmptyString (fieldMap !! "expires"));
    Ok (Some (Date.ofFloor (Number.mul expiresNum (Number.ofZ 1000))))
  else Ok None.

Record t : Type := {
  keyId : string;
  signature : Buffer.t;
  headers : list string;
  signatureAlgorithm : option SignatureAlgorithm;
  created : option Date.t;
  expires : option Date.t;
  observedAt : Date.t
}.

(** [Signature.fromHeader(header, atTime)]; [now] is the clock reading
    the constructor takes when [atTime] is undefined. *)
Definition fromHeader (now : Date.t) (header : string) (atTime : option Date.t)
  : Result t :=
  let pairs := Js.split "," header in
  fieldMap ← pairsToMap pairs;
  keyId ← getKeyId fieldMap;
  signature ← getSignature fieldMap;
  headers ← getHeaders fieldMap;
  signatureAlgorithm ← getSignatureAlgorithm fieldMap;
  created ← getCreated fieldMap;
  updated ← getExpires fieldMap;
  Ok {| keyId := keyId; signature := signature; headers := headers;
        signatureAlgorithm := signatureAlgorithm; created := created;
        expires := updated; observedAt := default now atTime |}.

Definition signedCreated (sig : t) : bool :=
  bool_decide (is_Some (created sig)) && Js.includes (headers sig) "(created)".

Definition signedExpires (sig : t) : bool :=
  bool_decide (is_Some (expires sig)) && Js.includes (headers sig) "(expires)".

Definition validCreation (sig : t) : bool :=
  match created sig with
  | None => true
  | Some c => Date.diffBelow c (observedAt sig) CREATED_SLACK
  end.

Definition validExpires (sig : t) : bool :=
  match expires sig with
  | None => true
  | Some e => Date.diffBelow (observedAt sig) e EXPIRES_SLACK
  end.

End Signature.


(* ================================================================== *)
(** * MessageContext.ts *)
(* ================================================================== *)

Record RequestTarget : Type := { method : string; path : string }.

(** The [HttpMessage] interface a framework adapter implements. *)
Module HttpMessage.
Record t : Type := {
  getHeader : string -> option (list string);
  requestTarget : option RequestTarget
}.
End HttpMessage.

Record MessageContextOptions : Type := {
  createdAt : option string;
  expiresAt : option string
}.

Module MessageContext.

Record t : Type := {
  message : HttpMessage.t;
  options : MessageContextOptions
}.

Definition getRequestTarget (ctx : t) : Result string :=
  match HttpMessage.requestTarget (message ctx) with
  | None =>
      Err (ConfigurationError "BUG: attempted to sign/verify (request-target) for response")
  | Some rt => Ok (Js.toLowerCase (method rt) +:+ " " +:+ path rt)
  end.

Definition getHeader (ctx : t) (name : string) : Result (option (list string)) :=
  let normalizedName := Js.toLowerCase name in
  if String.eqb normalizedName "(request-target)" then
    target ← getRequestTarget ctx; Ok (Some [target])
  else if String.eqb normalizedName "(created)" then
    Ok (if Js.truthy (createdAt (options ctx))
        then option_map (fun v => [v]) (createdAt (options ctx)) else None)
  else if String.eqb normalizedName "(expires)" then
    Ok (if Js.truthy (expiresAt (options ctx))
        then option_map (fun v => [v]) (expiresAt (options ctx)) else None)
  else Ok (HttpMessage.getHeader (message ctx) normalizedName).

(** One line of the canonical string: the callback of [headers.map]. *)
Definition canonicalLine (ctx : t) (h : string) : Result string :=
  let lowerName := Js.toLowerCase h in
  headerValues ← getHeader ctx lowerName;
  match headerValues with
  | None =>
      Err (VerificationError
             ("attempted to sign/verify missing header '" +:+ h +:+ "'"))
  | Some values =>
      Ok (Js.trimEnd (lowerName +:+ ": " +:+ Js.join ", " values))
  end.

Definition canonicalString (ctx : t) (headers : list string) : Result string :=
  mergedHeaders ← mapR (canonicalLine ctx) headers;
  Ok (Js.join (String Js.LF EmptyString) mergedHeaders).

(** [getSignature(atTime)]: the candidates are the values of the
    [signature] header and the [authorization] values of the
    [Signature] scheme. *)
Definition getSignature (now : Date.t) (ctx : t) (atTime : option Date.t)
  : Result (option Signature.t) :=
  signatureHeaders ← getHeader ctx "signature";
  authorization ← getHeader ctx "authorization";
  let signatureAuthHeaders :=
    option_map
      (fun values =>
         List.map (fun auth => Js.sliceFrom auth (Js.indexOf " " auth + 1))
                  (List.filter (fun auth => Js.startsWith auth "Signature ") values))
      authorization in
  let signatures := default [] signatureHeaders ++ default [] signatureAuthHeaders in
  match signatures with
  | [] => Ok None
  | [s] => sig ← Signature.fromHeader now s atTime; Ok (Some sig)
  | _ => Err (VerificationError "multiple signatures present on message")
  end.

End MessageContext.


(* ================================================================== *)
(** * The hash and MAC primitives of Node's [crypto] module *)
(* ================================================================== *)

(** SHA-256 and SHA-512 after FIPS 180-4, over words held in [N]. The
    round constants and initial hash values are derived from the primes,
    as the standard defines them. *)
Module Sha2.

Record params : Type := {
  wordBits : N;
  rounds : nat;
  bigSigma0 : N * N * N;
  bigSigma1 : N * N * N;
  smallSigma0 : N * N * N;
  smallSigma1 : N * N * N
}.

Definition sha256 : params := {|
  wordBits := 32; rounds := 64;
  bigSigma0 := (2, 13, 22); bigSigma1 := (6, 11, 25);
  smallSigma0 := (7, 18, 3); smallSigma1 := (17, 19, 10)
|}%N.

Definition sha512 : params := {|
  wordBits := 64; rounds := 80;
  bigSigma0 := (28, 34, 39); bigSigma1 := (14, 18, 41);
  smallSigma0 := (1, 8, 7); smallSigma1 := (19, 61, 6)
|}%N.

Definition primes : list N := [
  2; 3; 5; 7; 11; 13; 17; 19; 23; 29; 31; 37; 41; 43; 47; 53; 59; 61; 67; 71;
  73; 79; 83; 89; 97; 101; 103; 107; 109; 113; 127; 131; 137; 139; 149; 151;
  157; 163; 167; 173; 179; 181; 191; 193; 197; 199; 211; 223; 227; 229; 233;
  239; 241; 251; 257; 263; 269; 271; 277; 281; 283; 293; 307; 311; 313; 317;
  331; 337; 347; 349; 353; 359; 367; 373; 379; 383; 389; 397; 401; 409 ]%N.

(** The largest [r] below [2 ^ bits] with [r ^ k <= n], bit by bit. *)
Fixpoint iroot (k n : N) (bits : nat) (acc : N) : N :=
  match bits with
  | O => acc
  | S b =>
      let cand := (acc + 2 ^ N.of_nat b)%N in
      iroot k n b (if (cand ^ k <=? n)%N then cand else acc)
  end.

(** The first [w] bits of the fractional part of the [k]-th root of [p]. *)
Definition rootFraction (k w p : N) : N :=
  (iroot k (p * 2 ^ (k * w)) (N.to_nat w + 8) 0 mod 2 ^ w)%N.

Definition initialHash (p : params) : list N :=
  List.map (rootFraction 2 (wordBits p)) (firstn 8 primes).

Definition roundConstants (p : params) : list N :=
  List.map (rootFraction 3 (wordBits p)) (firstn (rounds p) primes).

Section Words.
Variable p : params.

Let w : N := wordBits p.

Definition mask : N := (2 ^ w - 1)%N.
Definition add (x y : N) : N := ((x + y) mod 2 ^ w)%N.
Definition rotr (x n : N) : N :=
  N.lor (N.shiftr x n) (N.land (N.shiftl x (w - n)) mask).
Definition shr (x n : N) : N := N.shiftr x n.

Definition bigSigma (c : N * N * N) (x : N) : N :=
  let '(r1, r2, r3) := c in N.lxor (N.lxor (rotr x r1) (rotr x r2)) (rotr x r3).
Definition smallSigma (c : N * N * N) (x : N) : N :=
  let '(r1, r2, s3) := c in N.lxor (N.lxor (rotr x r1) (rotr x r2)) (shr x s3).

Definition Ch (x y z : N) : N :=
  N.lxor (N.land x y) (N.land (N.lxor x mask) z).
Definition Maj (x y z : N) : N :=
  N.lxor (N.lxor (N.land x y) (N.land x z)) (N.land y z).

(** The working variables [a .. h]. *)
Definition state : Type := N * N * N * N * N * N * N * N.

Definition round (st : state) (k wt : N) : state :=
  let '(a, b, c, d, e, f, g, h) := st in
  let t1 := add (add (add (add h (bigSigma (bigSigma1 p) e)) (Ch e f g)) k) wt in
  let t2 := add (bigSigma (bigSigma0 p) a) (Maj a b c) in
  (add t1 t2, a, b, c, add d t1, e, f, g).

(** The message schedule is kept as a window of the last sixteen
    words; [next] is the word sixteen places after its head. *)
Definition next (window : list N) : N :=
  add (add (add (smallSigma (smallSigma1 p) (nth 14 window 0%N)) (nth 9 window 0%N))
           (smallSigma (smallSigma0 p) (nth 1 window 0%N)))
      (nth 0 window 0%N).

Fixpoint runRounds (ks : list N) (window : list N) (st : state) : state :=
  match ks with
  | [] => st
  | k :: ks' =>
      runRounds ks' (tl window ++ [next window]) (round st k (hd 0%N window))
  end.

Definition compress (ks : list N) (st : state) (block : list N) : state :=
  let '(a, b, c, d, e, f, g, h) := st in
  let '(a', b', c', d', e', f', g', h') := runRounds ks block st in
  (add a a', add b b', add c c', add d d', add e e', add f f', add g g', add h h').

Definition wordBytes : nat := N.to_nat (w / 8).

(** Big-endian bytes of a number, [n] of them. *)
Fixpoint bigEndian (n : nat) (x : N) : list byte :=
  match n with
  | O => []
  | S n' => Buffer.byteOfN (x / 256 ^ N.of_nat n') :: bigEndian n' x
  end.

Fixpoint fromBigEndian (acc : N) (bs : list byte) : N :=
  match bs with
  | [] => acc
  | b :: bs' => fromBigEndian (acc * 256 + Byte.to_N b) bs'
  end.

Definition blockBytes : nat := 16 * wordBytes.

(** The message followed by the byte 0x80, zero bytes, and the length
    in bits, up to a whole number of blocks. *)
Definition pad (msg : list byte) : list byte :=
  let used := (List.length msg + 1 + 2 * wordBytes)%nat in
  let zeros := ((blockBytes - used mod blockBytes) mod blockBytes)%nat in
  msg ++ [x80] ++ repeat x00 zeros
      ++ bigEndian (2 * wordBytes) (8 * N.of_nat (List.length msg)).

(** Consecutive chunks of [n] elements; [fuel] bounds their number. *)
Fixpoint chunks {A} (n : nat) (fuel : nat) (l : list A) : list (list A) :=
  match fuel, l with
  | O, _ | _, [] => []
  | S fuel', _ => firstn n l :: chunks n fuel' (skipn n l)
  end.

Definition blocks (bytes : list byte) : list (list N) :=
  List.map (fun blk => List.map (fromBigEndian 0) (chunks wordBytes 16 blk))
           (chunks blockBytes (List.length bytes) bytes).

Definition stateOfList (l : list N) : state :=
  (nth 0 l 0, nth 1 l 0, nth 2 l 0, nth 3 l 0,
   nth 4 l 0, nth 5 l 0, nth 6 l 0, nth 7 l 0)%N.

Definition output (st : state) : list byte :=
  let '(a, b, c, d, e, f, g, h) := st in
  List.concat (List.map (bigEndian wordBytes) [a; b; c; d; e; f; g; h]).

Definition hashWith (iv ks : list N) (msg : list byte) : list byte :=
  output (fold_left (compress ks) (blocks (pad msg)) (stateOfList iv)).

End Words.

Definition iv256 : list N := Eval vm_compute in initialHash sha256.
Definition k256 : list N := Eval vm_compute in roundConstants sha256.
Definition iv512 : list N := Eval vm_compute in initialHash sha512.
Definition k512 : list N := Eval vm_compute in roundConstants sha512.

End Sha2.

Module Crypto.

(** [crypto.createHash(name).update(buf).digest()]. *)
Definition hash (alg : DigestAlgorithm) (buf : Buffer.t) : Buffer.t :=
  match alg with
  | SHA256 => Sha2.hashWith Sha2.sha256 Sha2.iv256 Sha2.k256 buf
  | SHA512 => Sha2.hashWith Sha2.sha512 Sha2.iv512 Sha2.k512 buf
  end.

Definition hmacHash (alg : HmacAlgorithm) : DigestAlgorithm :=
  match alg with
  | HMAC_SHA256_ALG => SHA256
  | HMAC_SHA512_ALG => SHA512
  end.

Definition blockSize (alg : DigestAlgorithm) : nat :=
  match alg with
  | SHA256 => 64
  | SHA512 => 128
  end.

Definition xorByte (k : N) (b : byte) : byte :=
  Buffer.byteOfN (N.lxor k (Byte.to_N b)).

(** [crypto.createHmac(name, key)] fed with [buf]: HMAC after RFC 2104. *)
Definition hmac (alg : HmacAlgorithm) (key buf : Buffer.t) : Buffer.t :=
  let h := hmacHash alg in
  let size := blockSize h in
  let key0 := if (size <? List.length key)%nat then hash h key else key in
  let block := key0 ++ repeat x00 (size - List.length key0) in
  hash h (List.map (xorByte 92) block
            ++ hash h (List.map (xorByte 54) block ++ buf)).

End Crypto.


(* ================================================================== *)
(** * Configuration objects *)
(* ================================================================== *)

Inductive KeyType : Type := secret | public | private.

(** A [crypto.KeyObject]: its type tag and, for a secret key, its bytes. *)
Record KeyObject : Type := { keyType : KeyType; keyBytes : Buffer.t }.

(** Option records and key configurations are plain JavaScript objects
    that the package walks by property name, so they are kept as such:
    an object is the list of its own enumerable properties, in the order
    [Object.entries] yields them. *)
#[warnings="-register-all"] Inductive JsVal : Type :=
| JUndefined
| JBool (b : bool)
| JStr (s : string)
| JKey (k : KeyObject)
| JObj (props : list (string * JsVal)).

Module Obj.

Definition t : Type := list (string * JsVal).

(** [key in obj], for own properties. *)
Definition hasKey (obj : t) (key : string) : bool :=
  existsb (fun p => String.eqb (fst p) key) obj.

(** [obj[key]]. *)
Fixpoint get (obj : t) (key : string) : JsVal :=
  match obj with
  | [] => JUndefined
  | (k, v) :: rest => if String.eqb k key then v else get rest key
  end.

(** The object with [key] set to [v]: in place when the property
    exists, appended otherwise. *)
Fixpoint set (obj : t) (key : string) (v : JsVal) : t :=
  match obj with
  | [] => [(key, v)]
  | (k, w) :: rest =>
      if String.eqb k key then (k, v) :: rest else (k, w) :: set rest key v
  end.

(** The object spread [{...a, ...b}]. *)
Definition spread (a b : t) : t :=
  fold_left (fun acc p => set acc (fst p) (snd p)) b a.

(** [Object.fromEntries]. *)
Definition fromEntries (es : list (string * JsVal)) : t := spread [] es.

(** The rest of an object after destructuring the properties [keys]. *)
Definition without (keys : list string) (obj : t) : t :=
  List.filter (fun p => negb (Js.includes keys (fst p))) obj.

Definition isUndefined (v : JsVal) : bool :=
  match v with
  | JUndefined => true
  | _ => false
  end.

(** Truthiness. *)
Definition truthy (v : JsVal) : bool :=
  match v with
  | JUndefined => false
  | JBool b => b
  | JStr s => negb (Js.isEmpty s)
  | JKey _ | JObj _ => true
  end.

(** The text a value takes in a template literal. *)
Definition toStr (v : JsVal) : string :=
  match v with
  | JUndefined => "undefined"
  | JBool true => "true"
  | JBool false => "false"
  | JStr s => s
  | JKey _ | JObj _ => "[object Object]"
  end.

(** [Object.entries(v)]: throws on [undefined]; a boolean or a key
    object has no entries; a string has one per index. *)
Definition entries (v : JsVal) : Result t :=
  match v with
  | JUndefined => Err (TypeError "Cannot convert undefined or null to object")
  | JObj props => Ok props
  | JStr s =>
      Ok (List.map (fun ic => (fst ic, JStr (String (snd ic) EmptyString)))
            (combine (List.map (fun i => NilZero.string_of_uint (Nat.to_uint i))
                               (seq 0 (String.length s)))
                     (list_ascii_of_string s)))
  | JBool _ | JKey _ => Ok []
  end.

End Obj.

(** [HeaderSignMode]: the strings ['sign'] and ['verify']. *)
Inductive HeaderSignMode : Type := Sign | Verify.

Definition HeaderSignMode_name (m : HeaderSignMode) : string :=
  match m with
  | Sign => "sign"
  | Verify => "verify"
  end.

(* ================================================================== *)
(** * Effects: which MAC computations a call performs *)
(* ================================================================== *)

Module Effect.

(** One use of the MAC primitive on a buffer. *)
Inductive Event : Type :=
| MacComputed (buf : Buffer.t).

(** A computation reads the events so far and returns its result, or
    the exception it throws, with the events extended. *)
Definition M (A : Type) : Type := list Event -> Result A * list Event.

Definition ret {A} (a : A) : M A := fun tr => (Ok a, tr).

Definition throw {A} (e : Error) : M A := fun tr => (Err e, tr).

Definition bind {A B} (m : M A) (k : A -> M B) : M B := fun tr =>
  match m tr with
  | (Ok a, tr') => k a tr'
  | (Err e, tr') => (Err e, tr')
  end.

Definition lift {A} (r : Result A) : M A := fun tr => (r, tr).

Definition emit (ev : Event) : M unit := fun tr => (Ok tt, tr ++ [ev]).

(** [try { m } catch (e) { handler e }]. *)
Definition catch {A} (m : M A) (handler : Error -> M A) : M A := fun tr =>
  match m tr with
  | (Ok a, tr') => (Ok a, tr')
  | (Err e, tr') => handler e tr'
  end.

Definition result {A} (m : M A) : Result A := fst (m []).
Definition events {A} (m : M A) : list Event := snd (m []).

End Effect.

#[global] Instance M_ret : MRet Effect.M := @Effect.ret.
#[global] Instance M_bind : MBind Effect.M := fun A B k m => Effect.bind m k.

(* ================================================================== *)
(** * SignatureKey.ts *)
(* ================================================================== *)

Definition DigestFactory : Type := Buffer.t -> Buffer.t.

Module SignatureKey.

(** The abstract class: its fields, the abstract getter [algorithm] and
    the abstract methods [sign] and [verify]. *)
Record t : Type := {
  id : string;
  hasher : DigestFactory;
  signatureAlgorithm : SignatureAlgorithm;
  digestAlgorithm : DigestAlgorithm;
  options : Obj.t;
  algorithm : HmacAlgorithm;
  sign : Buffer.t -> Effect.M Buffer.t;
  verify : Buffer.t -> Buffer.t -> Effect.M bool
}.

(** [value === mode || value === true]. *)
Definition selected (mode : HeaderSignMode) (value : JsVal) : bool :=
  match value with
  | JStr s => String.eqb s (HeaderSignMode_name mode)
  | JBool b => b
  | _ => false
  end.

Definition headerList (headers : JsVal) (mode : HeaderSignMode) : Result (list string) :=
  entries ← Obj.entries headers;
  Ok (List.map fst (List.filter (fun p => selected mode (snd p)) entries)).

Definition digestBuffer (key : t) (buf : Buffer.t) : Buffer.t := hasher key buf.

Definition createDigestHeader (key : t) (body : Buffer.t) : string :=
  let digest := digestBuffer key body in
  Enum.digestAlgorithm (digestAlgorithm key) +:+ "=" +:+ Buffer.toBase64 digest.

Definition verifyDigestHeader (key : t) (body : Buffer.t) (digest : string)
  : Result bool :=
  let parts := Js.splitLimit "=" 2 digest in
  let cmpAlg := hd EmptyString parts in
  if negb (String.eqb (Js.toLowerCase cmpAlg)
                      (Js.toLowerCase (Enum.digestAlgorithm (digestAlgorithm key))))
  then Err (VerificationError
              ("mismatched digest algorithm: got " +:+ cmpAlg +:+ ", expected "
               +:+ Enum.digestAlgorithm (digestAlgorithm key)))
  else
    match nth_error parts 1 with
    | None =>
        Err (TypeError "The first argument must be of type string or an instance of Buffer")
    | Some encodedCmpDigest =>
        let cmpDigest := Buffer.fromBase64 encodedCmpDigest in
        let refDigest := digestBuffer key body in
        equal ← Buffer.timingSafeEqual cmpDigest refDigest;
        if negb equal then Err (VerificationError "body digest verification failed")
        else Ok true
    end.

(** [Object.values(DigestAlgorithm).includes(digest)], with the member found. *)
Definition parseDigestAlgorithm (digest : JsVal) : option DigestAlgorithm :=
  match digest with
  | JStr s => List.find (fun d => String.eqb (Enum.digestAlgorithm d) s) [SHA256; SHA512]
  | _ => None
  end.

Definition createDigestFactory (digest : JsVal) : Result DigestFactory :=
  match parseDigestAlgorithm digest with
  | Some d => Ok (Crypto.hash d)
  | None => Err (ConfigurationError ("unsupported digest algorithm " +:+ Obj.toStr digest))
  end.

(** The [Signature] parameter string [#signMessage] returns. *)
Definition format (keyId algorithm : string) (headers : list string) (sig : string)
  : string :=
  "keyId=" +:+ Js.quoted keyId +:+ ",algorithm=" +:+ Js.quoted algorithm
  +:+ ",headers=" +:+ Js.quoted (Js.join " " headers)
  +:+ ",signature=" +:+ Js.quoted sig.

Definition signMessage (key : t) (msgCtx : MessageContext.t) (headerSpec : JsVal)
  : Effect.M string :=
  listed ← Effect.lift (headerList headerSpec Sign);
  let algorithm := signatureAlgorithm key in
  let headers :=
    if Obj.truthy (Obj.get (options key) "calculateDigest")
       && negb (Js.includes listed "digest")
    then listed ++ ["digest"] else listed in
  payload ← Effect.lift (MessageContext.canonicalString msgCtx headers);
  mac ← sign key (Buffer.fromUtf8 payload);
  mret (format (id key) (Enum.signatureAlgorithm algorithm) headers
               (Buffer.toBase64 mac)).

Definition verifyMessage (now : Date.t) (key : t) (msgCtx : MessageContext.t)
    (headerSpec : JsVal) : Effect.M bool :=
  found ← Effect.lift (MessageContext.getSignature now msgCtx None);
  match found with
  | None => Effect.throw (VerificationError "signature not present on message")
  | Some refSig =>
      let headers := Signature.headers refSig in
      if match Signature.signatureAlgorithm refSig with
         | Some declared => negb (Enum.signatureAlgorithmEqb (signatureAlgorithm key) declared)
         | None => false
         end
      then Effect.throw
             (VerificationError
                ("incorrect signature scheme used for key '" +:+ id key +:+ "'"))
      else
        payload ← Effect.lift (MessageContext.canonicalString msgCtx headers);
        signatureVerified ← verify key (Buffer.fromUtf8 payload) (Signature.signature refSig);
        if negb signatureVerified
        then Effect.throw (VerificationError "signature verification failure")
        else
          required ← Effect.lift (headerList headerSpec Verify);
          let missingHeaders :=
            List.filter (fun header => negb (Js.includes (Signature.headers refSig) header))
                        required in
          if (0 <? List.length missingHeaders)%nat
          then Effect.throw
                 (VerificationError
                    ("signature missing required headers: "
                     +:+ Js.join ", " missingHeaders))
          else if negb (Signature.validCreation refSig)
          then Effect.throw (VerificationError "signature creation in future")
          else if negb (Signature.validExpires refSig)
          then Effect.throw (VerificationError "signature has expired")
          else mret true
  end.

Definition signRequest (key : t) (msgCtx : MessageContext.t) : Effect.M string :=
  signMessage key msgCtx (Obj.get (options key) "requestHeaders").

Definition signResponse (key : t) (msgCtx : MessageContext.t) : Effect.M string :=
  signMessage key msgCtx (Obj.get (options key) "responseHeaders").

Definition verifyRequest (now : Date.t) (key : t) (msgCtx : MessageContext.t)
  : Effect.M bool :=
  verifyMessage now key msgCtx (Obj.get (options key) "requestHeaders").

Definition verifyResponse (now : Date.t) (key : t) (msgCtx : MessageContext.t)
  : Effect.M bool :=
  verifyMessage now key msgCtx (Obj.get (options key) "responseHeaders").

End SignatureKey.

(* ================================================================== *)
(** * HmacSignatureKey.ts *)
(* ================================================================== *)

(** [SecretKeyConfig]. The key is a [KeyObject] as the type requires;
    [None] stands for a configuration object without one. *)
Record SecretKeyConfig : Type := {
  macAlgorithm : HmacAlgorithm;
  key : option KeyObject
}.

Module HmacSignatureKey.

Definition HmacFactory : Type := Buffer.t -> Buffer.t.

Definition keyTypeName (k : KeyType) : string :=
  match k with
  | secret => "secret"
  | public => "public"
  | private => "private"
  end.

Definition createHmacFactory (config : SecretKeyConfig) : Result HmacFactory :=
  match key config with
  | None => Err (TypeError "Cannot read properties of undefined (reading 'type')")
  | Some k =>
      match keyType k with
      | secret => Ok (Crypto.hmac (macAlgorithm config) (keyBytes k))
      | other =>
          Err (ConfigurationError
                 ("HMAC key type requires secret key, got " +:+ keyTypeName other))
      end
  end.

Definition sign (hmac : HmacFactory) (buf : Buffer.t) : Effect.M Buffer.t :=
  _ ← Effect.emit (Effect.MacComputed buf);
  mret (hmac buf).

Definition verify (hmac : HmacFactory) (buf mac : Buffer.t) : Effect.M bool :=
  (* create reference signature for comparison *)
  actualMac ← sign hmac buf;
  Effect.catch
    (Effect.lift (Buffer.timingSafeEqual actualMac mac))
    (fun e =>
       match e with
       | RangeError _ => Effect.throw (VerificationError "signature length mismatch")
       | _ => Effect.throw e
       end).

(** The constructor. *)
Definition new (id : string) (signatureAlgorithm : SignatureAlgorithm)
    (hasher : DigestFactory) (digest : DigestAlgorithm) (config : SecretKeyConfig)
    (opts : Obj.t) : Result SignatureKey.t :=
  hmac ← createHmacFactory config;
  Ok {| SignatureKey.id := id;
        SignatureKey.hasher := hasher;
        SignatureKey.signatureAlgorithm := signatureAlgorithm;
        SignatureKey.digestAlgorithm := digest;
        SignatureKey.options := opts;
        SignatureKey.algorithm := macAlgorithm config;
        SignatureKey.sign := sign hmac;
        SignatureKey.verify := verify hmac |}.

End HmacSignatureKey.

(* ================================================================== *)
(** * SignatureKeyManager.ts *)
(* ================================================================== *)

Module SignatureKeyManager.

(** The resolver, once awaited: the key configuration or [undefined]. *)
Definition KeyLookupFunction : Type := string -> option Obj.t.

Definition firstDefined (vals : list JsVal) : JsVal :=
  match List.find (fun v => negb (Obj.isUndefined v)) vals with
  | Some v => v
  | None => JUndefined
  end.

Definition hasKey (obj : Obj.t) (key : string) : bool := Obj.hasKey obj key.

Definition fixedKeyLookup (fixedKeyId : JsVal) (keyConfig : Obj.t) : KeyLookupFunction :=
  fun keyId =>
    match fixedKeyId with
    | JStr s => if String.eqb keyId s then Some keyConfig else None
    | _ => None
    end.

Definition DEFAULT_OPTS : Obj.t := [
  ("signatureAlgorithm", JStr "hs2019");
  ("requestHeaders", JObj [("(request-target)", JBool true); ("host", JBool true)]);
  ("responseHeaders", JObj []);
  ("calculateDigest", JBool true)
].

Record t : Type := {
  keyLookup : KeyLookupFunction;
  baseSigningOptions : Obj.t
}.

Definition getKeySigningOptions (mgr : t) (keyId : string) (overrides : Obj.t)
  : Result Obj.t :=
  resolvedOptions ←
    mapR (fun entry =>
            let optionKey := fst entry in
            let value := snd entry in
            if negb (hasKey overrides optionKey) then Ok (optionKey, value)
            else
              let effectiveValue := firstDefined [Obj.get overrides optionKey; value] in
              if Obj.isUndefined effectiveValue
              then Err (ConfigurationError
                          ("key config for " +:+ keyId +:+ " has unset option "
                           +:+ optionKey))
              else Ok (optionKey, effectiveValue))
         (baseSigningOptions mgr);
  Ok (Obj.fromEntries resolvedOptions).

Definition parseHmacAlgorithm (v : JsVal) : option HmacAlgorithm :=
  match v with
  | JStr s =>
      List.find (fun a => String.eqb (Enum.hmacAlgorithm a) s)
                [HMAC_SHA256_ALG; HMAC_SHA512_ALG]
  | _ => None
  end.

Definition keyObjectOf (v : JsVal) : option KeyObject :=
  match v with
  | JKey k => Some k
  | _ => None
  end.

Definition createSignatureKey (id : string) (signatureAlgorithm : SignatureAlgorithm)
    (config : Obj.t) (options : Obj.t) : Result SignatureKey.t :=
  hasher ← SignatureKey.createDigestFactory (Obj.get config "digest");
  if Obj.truthy (Obj.get config "algorithm") then
    match parseHmacAlgorithm (Obj.get config "algorithm"),
          SignatureKey.parseDigestAlgorithm (Obj.get config "digest") with
    | Some algorithm, Some digest =>
        HmacSignatureKey.new id signatureAlgorithm hasher digest
          {| macAlgorithm := algorithm; key := keyObjectOf (Obj.get config "key") |}
          options
    | _, _ =>
        Err (ConfigurationError
               ("unsupported signing algorithm " +:+ Obj.toStr (Obj.get config "algorithm")))
    end
  else if Obj.truthy (Obj.get config "keyAlgorithm") then
    Err (ConfigurationError "key pair algorithms are not yet supported")
  else Err (ConfigurationError "got unrecognized key configuration object").

Definition tryGetKey (mgr : t) (keyId : string) : Result (option SignatureKey.t) :=
  match keyLookup mgr keyId with
  | None => Ok None
  | Some keyConfig =>
      options ← getKeySigningOptions mgr keyId keyConfig;
      match Obj.get keyConfig "signatureAlgorithm" with
      | JStr "hs2019" =>
          k ← createSignatureKey keyId HS2019 keyConfig options; Ok (Some k)
      | JStr "hmac-sha256" =>
          if negb (Obj.truthy (Obj.get keyConfig "algorithm"))
          then Err (ConfigurationError "cannot use hmac-sha256 with public keys")
          else
            let finalKeyConfig :=
              Obj.spread keyConfig
                [("digest", JStr "SHA-256"); ("algorithm", JStr "hmac-sha256")] in
            k ← createSignatureKey keyId HMAC_SHA256 finalKeyConfig options; Ok (Some k)
      | other =>
          Err (ConfigurationError
                 ("unrecognized signature algorithm requested for key '" +:+ keyId
                  +:+ "': " +:+ Obj.toStr other))
      end
  end.

Definition getKey (mgr : t) (keyId : string) : Result SignatureKey.t :=
  found ← tryGetKey mgr keyId;
  match found with
  | None => Err (VerificationError ("key " +:+ keyId +:+ " not found"))
  | Some k => Ok k
  end.

(** [SignatureKeyManager.create(config)]. The function-valued property
    [keyLookup] of the configuration is passed beside the object. *)
Definition create (config : Obj.t) (lookup : option KeyLookupFunction) : Result t :=
  if negb (match Obj.get config "version" with
           | JStr v => String.eqb v "draft-cavage-http-signatures-12"
           | _ => false
           end)
  then Err (ConfigurationError
              ("unsupported signature version " +:+ Obj.toStr (Obj.get config "version")))
  else
    modified ←
      (if Obj.truthy (Obj.get config "keyId") then
         let keyLookup := fixedKeyLookup (Obj.get config "keyId") config in
         let baseStrippedConfig := Obj.without ["keyId"; "digest"] config in
         if Obj.truthy (Obj.get baseStrippedConfig "algorithm") then
           Ok (Obj.without ["algorithm"; "key"] baseStrippedConfig, keyLookup)
         else if Obj.truthy (Obj.get baseStrippedConfig "keyAlgorithm") then
           Ok (Obj.without ["keyAlgorithm"; "hashAlgorithm"; "publicKey"; "privateKey"]
                           baseStrippedConfig, keyLookup)
         else Err (ConfigurationError "unrecognized fixed key configuration")
       else
         match lookup with
         | Some keyLookup => Ok (config, keyLookup)
         | None =>
             Err (ConfigurationError
                    "either a fixed {keyId, key} or a key lookup function must be provided")
         end);
    let finalConfig := Obj.spread DEFAULT_OPTS (fst modified) in
    Ok {| keyLookup := snd modified; baseSigningOptions := finalConfig |}.

End SignatureKeyManager.

(* ================================================================== *)
(** * Concrete messages, keys and header strings *)
(* ================================================================== *)

Module Example.

Definition noOptions : MessageContextOptions := {| createdAt := None; expiresAt := None |}.

(** A message given by the association list of its headers. *)
Definition messageOf (target : option RequestTarget) (hs : list (string * list string))
  : HttpMessage.t :=
  {| HttpMessage.getHeader := fun name =>
       option_map snd (List.find (fun p => String.eqb (fst p) name) hs);
     HttpMessage.requestTarget := target |}.

(** The input of the canonical-string reference test. *)
Definition referenceMessage : HttpMessage.t :=
  messageOf (Some {| method := "GET"; path := "/foo" |})
    [ ("host", ["example.org"]);
      ("date", ["Tue, 07 Jun 2014 20:51:35 GMT"]);
      ("x-example", ["Example header with some whitespace."]);
      ("x-emptyheader", [EmptyString]);
      ("cache-control", ["max-age=60"; "must-revalidate"]) ].

Definition referenceContext : MessageContext.t :=
  {| MessageContext.message := referenceMessage;
     MessageContext.options := {| createdAt := Some "1402170695"; expiresAt := None |} |}.

Definition referenceHeaders : list string :=
  ["(request-target)"; "(created)"; "host"; "date"; "cache-control";
   "x-emptyheader"; "x-example"].

Definition referenceLines : list string :=
  [ "(request-target): get /foo";
    "(created): 1402170695";
    "host: example.org";
    "date: Tue, 07 Jun 2014 20:51:35 GMT";
    "cache-control: max-age=60, must-revalidate";
    "x-emptyheader:";
    "x-example: Example header with some whitespace." ].

(** The values the reference context holds for each name. *)
Definition referenceValues (h : string) : list string :=
  if String.eqb h "(request-target)" then ["get /foo"]
  else if String.eqb h "(created)" then ["1402170695"]
  else default [] (HttpMessage.getHeader referenceMessage h).

(** A request whose [x-pad] value ends in a space. *)
Definition paddedContext : MessageContext.t :=
  {| MessageContext.message :=
       messageOf (Some {| method := "GET"; path := "/" |}) [("x-pad", ["v "])];
     MessageContext.options := noOptions |}.

Definition unpaddedContext : MessageContext.t :=
  {| MessageContext.message :=
       messageOf (Some {| method := "GET"; path := "/" |}) [("x-pad", ["v"])];
     MessageContext.options := noOptions |}.

(** A response: it has no request target. *)
Definition responseContext : MessageContext.t :=
  {| MessageContext.message := messageOf None [("content-type", ["text/plain"])];
     MessageContext.options := noOptions |}.

(** The signature value used throughout the parser tests. *)
Definition testSignature : string := "3UqQIVxNJfNm8E54n35RReP9Nv05a9dEZTxr/deog3g=".

(** The header of the slack tests, with the given [created] value. *)
Definition slackHeader (createdTimestamp : Z) : string :=
  Js.dq "keyId='test',algorithm='hs2019',headers='content-type (created) (request-target) host digest',created="
  +:+ Js.decimal (Z.to_N createdTimestamp)
  +:+ Js.dq ",signature='" +:+ testSignature +:+ Js.dq "'".

Definition baseTime : Z := 1000000000000.

(** Headers the strict parser rejects, after the package's parser tests. *)
Definition rejected : list string := List.map Js.dq [
  ",keyId='test',signature='3UqQIVxNJfNm8E54n35RReP9Nv05a9dEZTxr/deog3g='";
  "keyId='test',signature='3UqQIVxNJfNm8E54n35RReP9Nv05a9dEZTxr/deog3g=',";
  "keyId='test',,signature='3UqQIVxNJfNm8E54n35RReP9Nv05a9dEZTxr/deog3g='";
  "keyId='test',algorithm='hs2019',created='1234',signature='3UqQIVxNJfNm8E54n35RReP9Nv05a9dEZTxr/deog3g='";
  "keyId='test',algorithm='hs2019',expires='1234',signature='3UqQIVxNJfNm8E54n35RReP9Nv05a9dEZTxr/deog3g='";
  "keyId=test,signature='3UqQIVxNJfNm8E54n35RReP9Nv05a9dEZTxr/deog3g='";
  "keyId='test', signature='3UqQIVxNJfNm8E54n35RReP9Nv05a9dEZTxr/deog3g='";
  "keyId='test',created=01,signature='3UqQIVxNJfNm8E54n35RReP9Nv05a9dEZTxr/deog3g='";
  "keyId='test',created=-1,signature='3UqQIVxNJfNm8E54n35RReP9Nv05a9dEZTxr/deog3g='";
  "keyId='test',created=1234.56,signature='3UqQIVxNJfNm8E54n35RReP9Nv05a9dEZTxr/deog3g='";
  "keyId='test',expires=.1,signature='3UqQIVxNJfNm8E54n35RReP9Nv05a9dEZTxr/deog3g='";
  "keyId='test',expires=1.,signature='3UqQIVxNJfNm8E54n35RReP9Nv05a9dEZTxr/deog3g='";
  "keyId='test',expires=1.2.3,signature='3UqQIVxNJfNm8E54n35RReP9Nv05a9dEZTxr/deog3g='";
  "keyId='test',headers=' content-type (request-target) host digest',signature='3UqQIVxNJfNm8E54n35RReP9Nv05a9dEZTxr/deog3g='";
  "keyId='test',headers='content-type (request-target) host  digest',signature='3UqQIVxNJfNm8E54n35RReP9Nv05a9dEZTxr/deog3g='";
  "keyId='test',keyId='test',signature='3UqQIVxNJfNm8E54n35RReP9Nv05a9dEZTxr/deog3g='"
].

(** A header list with a tab between two names. *)
Definition tabbedHeader : string :=
  Js.dq "keyId='test',algorithm='hs2019',headers='content-type (request-target) host"
  +:+ String Js.TAB (Js.dq "digest',signature='3UqQIVxNJfNm8E54n35RReP9Nv05a9dEZTxr/deog3g='").

(** The secret of the package's signing example. *)
Definition secretBytes : Buffer.t :=
  Buffer.fromBase64 "SPJp2BUqwI0bFSe/+mh3vKq5yk0eVOG+2fsIqgcgo7s=".

Definition secretKey : KeyObject := {| keyType := secret; keyBytes := secretBytes |}.

(** The HMAC-SHA256 key the manager builds for that secret, with the
    given identifier and options. *)
Definition keyWith (keyId : string) (opts : Obj.t) : SignatureKey.t :=
  {| SignatureKey.id := keyId;
     SignatureKey.hasher := Crypto.hash SHA256;
     SignatureKey.signatureAlgorithm := HS2019;
     SignatureKey.digestAlgorithm := SHA256;
     SignatureKey.options := opts;
     SignatureKey.algorithm := HMAC_SHA256_ALG;
     SignatureKey.sign := HmacSignatureKey.sign (Crypto.hmac HMAC_SHA256_ALG secretBytes);
     SignatureKey.verify := HmacSignatureKey.verify (Crypto.hmac HMAC_SHA256_ALG secretBytes) |}.

Definition optionsWith (requestHeaders responseHeaders : Obj.t) (calculateDigest : bool)
  : Obj.t :=
  [ ("signatureAlgorithm", JStr "hs2019");
    ("requestHeaders", JObj requestHeaders);
    ("responseHeaders", JObj responseHeaders);
    ("calculateDigest", JBool calculateDigest) ].

(** The key of the signing example: the default options. *)
Definition defaultKey : SignatureKey.t :=
  keyWith "test" (optionsWith [("(request-target)", JBool true); ("host", JBool true)] [] true).

(** The request of the signing example, carrying [sig] as its
    [Signature] header when given. *)
Definition postRequest (sig : option string) : MessageContext.t :=
  {| MessageContext.message :=
       messageOf (Some {| method := "POST"; path := "/" |})
         ([ ("content-type", ["application/json"]);
            ("host", ["foobar.com"]);
            ("digest", ["SHA-256=Qm/ATwS/j9tYMdw3u7bc9w9jo34FpoxupfY+ha5Xk3Y="]) ]
          ++ match sig with
             | Some s => [("signature", [s])]
             | None => []
             end);
     MessageContext.options := noOptions |}.

(** A peer's key that signs [host] alone and no digest. *)
Definition hostOnlyKey : SignatureKey.t :=
  keyWith "test" (optionsWith [("host", JBool true)] [] false).


Definition hostOnlySignature : string :=
  Js.dq "keyId='test',algorithm='hs2019',headers='host',signature='O6cTufDzzLDfazyOtrvkM5zGc9iIdVdJ8SGmN6OYXNY='".

(** A signature that declares the scheme [rsa-sha256]. *)
Definition rsaSignature : string :=
  Js.dq "keyId='test',algorithm='rsa-sha256',headers='host',signature='O6cTufDzzLDfazyOtrvkM5zGc9iIdVdJ8SGmN6OYXNY='".

(** A signature over [host] that declares no algorithm. *)
Definition bareSignature : string :=
  Js.dq "keyId='test',headers='host',signature='O6cTufDzzLDfazyOtrvkM5zGc9iIdVdJ8SGmN6OYXNY='".

(** A key with the default empty response header set and digest
    calculation off, and a response to sign. *)
Definition plainResponseKey : SignatureKey.t :=
  keyWith "test" (optionsWith [("(request-target)", JBool true); ("host", JBool true)] [] false).

Definition response (sig : option string) : MessageContext.t :=
  {| MessageContext.message :=
       messageOf None
         ([ ("content-type", ["text/plain"]) ]
          ++ match sig with
             | Some s => [("signature", [s])]
             | None => []
             end);
     MessageContext.options := noOptions |}.

(** A key that signs [host] and requires the peer to sign [date]. *)
Definition asymmetricKey : SignatureKey.t :=
  keyWith "test" (optionsWith [("host", JBool true); ("date", JStr "verify")] [] false).

Definition now : Date.t := Date.Instant 1700000000000.

(** A manager with a lookup function, and a key configuration that
    carries per-key overrides in its [options] property. *)
Definition overridingKeyConfig : Obj.t :=
  [ ("signatureAlgorithm", JStr "hs2019");
    ("digest", JStr "SHA-256");
    ("algorithm", JStr "hmac-sha256");
    ("key", JKey secretKey);
    ("options", JObj [("calculateDigest", JBool false)]) ].

Definition lookupOverriding : SignatureKeyManager.KeyLookupFunction :=
  fun keyId => if String.eqb keyId "test" then Some overridingKeyConfig else None.

Definition managerConfig : Obj.t := [("version", JStr "draft-cavage-http-signatures-12")].

(** A manager configuration that sets [calculateDigest] to undefined. *)
Definition undefinedDigestConfig : Obj.t :=
  [("version", JStr "draft-cavage-http-signatures-12"); ("calculateDigest", JUndefined)].

Definition plainKeyConfig : Obj.t :=
  [ ("signatureAlgorithm", JStr "hs2019");
    ("digest", JStr "SHA-256");
    ("algorithm", JStr "hmac-sha256");
    ("key", JKey secretKey) ].

Definition lookupPlain : SignatureKeyManager.KeyLookupFunction :=
  fun keyId => if String.eqb keyId "test" then Some plainKeyConfig else None.

Definition jsonBody : Buffer.t := Buffer.fromUtf8 (Js.dq "{'foo':'bar'}").

End Example.

(* ================================================================== *)
(** * Vocabulary of the statements *)
(* ================================================================== *)


(** The header list [#signMessage] signs: the names tagged for signing,
    then [digest] when digest calculation is on and it is not among them. *)
Definition signedHeaders (key : SignatureKey.t) (listed : list string) : list string :=
  if Obj.truthy (Obj.get (SignatureKey.options key) "calculateDigest")
     && negb (Js.includes listed "digest")
  then listed ++ ["digest"] else listed.

(** The headers that the local policy requires and the signature lacks. *)
Definition missingHeaders (refSig : Signature.t) (required : list string) : list string :=
  List.filter (fun header => negb (Js.includes (Signature.headers refSig) header)) required.


(** The string ends with a character that is not white space. *)
Definition endsNonWs (s : string) : Prop :=
  exists q c, s = q +:+ String c EmptyString /\ Js.isWhiteSpace c = false.

(** Every character of the string is white space. *)
Fixpoint allWhiteSpace (s : string) : bool :=
  match s with
  | EmptyString => true
  | String c s' => Js.isWhiteSpace c && allWhiteSpace s'
  end.

(** Some character of the string satisfies [p]. *)
Fixpoint anyChar (p : ascii -> bool) (s : string) : bool :=
  match s with
  | EmptyString => false
  | String c s' => p c || anyChar p s'
  end.

(** The character occurs in the string. *)
Definition occurs (c : ascii) (s : string) : bool := anyChar (Ascii.eqb c) s.

(** The name and the value [pairsToMap] reads off a pair. *)
Definition pairKey (pair : string) : string :=
  Js.slice pair 0 (Js.indexOf "=" pair).

Definition pairValue (pair : string) : string :=
  Js.sliceFrom pair (Js.indexOf "=" pair + 1).

(** The parameter list of [header] has [param] between two commas (or
    an end of the string). *)
Definition hasParam (header param : string) : Prop :=
  In param (Js.split "," header).

(** The inputs the strict parser must reject. *)
Inductive StrictViolation (header : string) : Prop :=
| LeadingComma (rest : string) :
    header = "," +:+ rest -> StrictViolation header
| TrailingComma (rest : string) :
    header = rest +:+ "," -> StrictViolation header
| ConsecutiveCommas (a b : string) :
    header = a +:+ ",," +:+ b -> StrictViolation header
| QuotedNumber (name rest : string) :
    name = "created" \/ name = "expires" ->
    hasParam header (name +:+ "=" +:+ String Js.DQUOTE rest) ->
    StrictViolation header
| UnquotedString (name value : string) :
    In name ["keyId"; "algorithm"; "headers"; "signature"] ->
    hasParam header (name +:+ "=" +:+ value) ->
    Js.startsWith value Signature.DQ = false \/ Js.endsWith value Signature.DQ = false ->
    StrictViolation header
| SpaceAfterComma (a b : string) (w : ascii) :
    Js.isWhiteSpace w = true ->
    header = a +:+ "," +:+ String w b -> StrictViolation header
| CreatedLeadingZero : hasParam header "created=01" -> StrictViolation header
| CreatedNegative : hasParam header "created=-1" -> StrictViolation header
| CreatedFraction : hasParam header "created=1234.56" -> StrictViolation header
| ExpiresLeadingPoint : hasParam header "expires=.1" -> StrictViolation header
| ExpiresTrailingPoint : hasParam header "expires=1." -> StrictViolation header
| ExpiresTwoPoints : hasParam header "expires=1.2.3" -> StrictViolation header
| HeadersLeadingSpace (x : string) :
    hasParam header ("headers=" +:+ Js.quoted (" " +:+ x)) -> StrictViolation header
| HeadersDoubleSpace (a b : string) :
    hasParam header ("headers=" +:+ Js.quoted (a +:+ "  " +:+ b)) ->
    StrictViolation header
| HeadersTab (a b : string) :
    hasParam header ("headers=" +:+ Js.quoted (a +:+ String Js.TAB b)) ->
    StrictViolation header
| DuplicateParameter (l1 l2 l3 : list string) (name v1 v2 : string) :
    occurs "=" name = false ->
    Js.split "," header
    = l1 ++ (name +:+ "=" +:+ v1) :: l2 ++ (name +:+ "=" +:+ v2) :: l3 ->
    StrictViolation header.

(** A header name that survives the parameter string: not empty, free
    of white space and of commas. *)
Definition wireSafe (h : string) : Prop :=
  Js.isEmpty h = false /\ anyChar Js.isWhiteSpace h = false /\ occurs "," h = false.

(** The parameters that the string formatted by [#signMessage] holds. *)
Definition parsedFields (keyId algorithm : string) (headers : list string) (sig : string)
  : gmap string string :=
  <["signature" := Js.quoted sig]>
    (<["headers" := Js.quoted (Js.join " " headers)]>
       (<["algorithm" := Js.quoted algorithm]>
          (<["keyId" := Js.quoted keyId]> ∅))).

(** [verified] is [signed] with [s] added as its only [Signature]
    header; [signed] has no [Authorization] value that starts with
    [Signature ], so [s] is the candidate that [getSignature] picks. *)
Definition carriesSignature (signed verified : MessageContext.t) (s : string) : Prop :=
  MessageContext.options verified = MessageContext.options signed
  /\ HttpMessage.requestTarget (MessageContext.message verified)
     = HttpMessage.requestTarget (MessageContext.message signed)
  /\ HttpMessage.getHeader (MessageContext.message verified) "signature" = Some [s]
  /\ (forall name, name <> "signature" ->
        HttpMessage.getHeader (MessageContext.message verified) name
        = HttpMessage.getHeader (MessageContext.message signed) name)
  /\ (forall values,
        HttpMessage.getHeader (MessageContext.message signed) "authorization" = Some values ->
        Forall (fun v => Js.startsWith v "Signature " = false) values).

(* ================================================================== *)
(** * Tactics *)
(* ================================================================== *)

(** A failing match on results leaves only VerificationErrors. *)
Ltac verification_only :=
  intros; repeat case_match; simplify_eq; eauto.

(** Splits the first bind of a failing computation; [lem] bounds the
    error of its first step. *)
Ltac bind_error lem :=
  match goal with
  | H : _ = Err _ |- _ =>
      unfold mbind, Result_bind in H;
      match type of H with
      | match ?r with Ok _ => _ | Err _ => _ end = Err _ =>
          let E := fresh "E" in
          destruct r eqn:E; cbv beta iota in H;
          [|inversion H; subst; eapply lem; exact E]
      end
  end.

(** Membership of a parameter in a closed header. *)
Ltac has_param := unfold hasParam; vm_compute; tauto.

(** Division and remainder in linear goals. *)
Ltac Zify.zify_post_hook ::= Z.div_mod_to_equations.

(** Linear goals over [N], through [Z]. *)
Ltac n2z :=
  repeat match goal with
         | |- _ /\ _ => split
         | |- @eq N _ _ => apply N2Z.inj
         end;
  repeat rewrite ?N2Z.inj_add, ?N2Z.inj_mul, ?N2Z.inj_div, ?N2Z.inj_mod;
  cbn [Z.of_N]; lia.

(* ================================================================== *)
(** * Results and strings: general lemmas *)
(* ================================================================== *)

Lemma app_cons (c : ascii) (s t : string) : String c s +:+ t = String c (s +:+ t).
Proof. reflexivity. Qed.

Lemma app_empty_l (t : string) : EmptyString +:+ t = t.
Proof. reflexivity. Qed.

Lemma app_empty_r (s : string) : s +:+ EmptyString = s.
Proof. induction s as [|c s IH]; [reflexivity|]. by rewrite app_cons, IH. Qed.

Lemma app_assoc_str (a b c : string) : (a +:+ b) +:+ c = a +:+ (b +:+ c).
Proof. induction a as [|x a IH]; [reflexivity|]. by rewrite !app_cons, IH. Qed.

Lemma app_length_str (a b : string) :
  String.length (a +:+ b) = (String.length a + String.length b)%nat.
Proof. induction a as [|x a IH]; [reflexivity|]. rewrite app_cons. simpl. by rewrite IH. Qed.

Lemma snoc_inj (a b : string) (c d : ascii) :
  a +:+ String c EmptyString = b +:+ String d EmptyString -> a = b /\ c = d.
Proof.
  revert b. induction a as [|x a IH]; intros [|y b] H.
  - rewrite !app_empty_l in H. by inversion H.
  - rewrite app_empty_l, app_cons in H. inversion H as [[Hx Hb]].
    destruct b; discriminate Hb.
  - rewrite app_empty_l, app_cons in H. inversion H as [[Hx Ha]].
    destruct a; discriminate Ha.
  - rewrite !app_cons in H. inversion H as [[Hx Hab]].
    destruct (IH _ Hab) as [-> ->]. done.
Qed.

Lemma mapR_ok_map {A B} (f : A -> Result B) (g : A -> B) (l : list A) :
  Forall (fun a => f a = Ok (g a)) l -> mapR f l = Ok (List.map g l).
Proof.
  induction 1 as [|a l Ha _ IH]; [reflexivity|].
  simpl. rewrite Ha. simpl. rewrite IH. reflexivity.
Qed.

Lemma mapR_ok_inv {A B} (f : A -> Result B) (l : list A) (bs : list B) :
  mapR f l = Ok bs -> Forall2 (fun a b => f a = Ok b) l bs.
Proof.
  revert bs. induction l as [|a l IH]; intros bs H; simpl in H.
  - inversion H. constructor.
  - destruct (f a) as [b|e] eqn:Hfa; simpl in H; [|discriminate].
    destruct (mapR f l) as [bs'|e] eqn:Hl; simpl in H; [|discriminate].
    inversion H; subst. constructor; [done|]. by apply IH.
Qed.

Lemma mapR_first_error {A B} (f : A -> Result B) (pre post : list A) (h : A) (e : Error) :
  Forall (fun a => exists b, f a = Ok b) pre -> f h = Err e ->
  mapR f (pre ++ h :: post) = Err e.
Proof.
  intros Hpre Hh. induction Hpre as [|a pre [b Hb] _ IH]; simpl.
  - by rewrite Hh.
  - rewrite Hb. simpl. by rewrite IH.
Qed.

Lemma mapR_ext {A B} (f g : A -> Result B) (l : list A) :
  Forall (fun a => f a = g a) l -> mapR f l = mapR g l.
Proof.
  induction 1 as [|a l Ha _ IH]; [reflexivity|]. simpl. by rewrite Ha, IH.
Qed.

(** ** [toLowerCase] *)

Lemma lowerChar_idem (c : ascii) : Js.lowerChar (Js.lowerChar c) = Js.lowerChar c.
Proof. destruct c as [[] [] [] [] [] [] [] []]; reflexivity. Qed.

Lemma toLowerCase_idem (s : string) : Js.toLowerCase (Js.toLowerCase s) = Js.toLowerCase s.
Proof. induction s as [|c s IH]; [reflexivity|]. simpl. by rewrite lowerChar_idem, IH. Qed.

(** ** [trimEnd] *)

Lemma trimEnd_shape (s : string) : Js.trimEnd s = EmptyString \/ endsNonWs (Js.trimEnd s).
Proof.
  induction s as [|c s IH]; [by left|]. simpl.
  destruct (Js.isWhiteSpace c) eqn:Hc, (Js.trimEnd s) as [|d t] eqn:Ht; simpl.
  - by left.
  - right. destruct IH as [IH|(q & x & Hq & Hx)]; [discriminate|].
    exists (String c q), x. by rewrite Hq.
  - right. exists EmptyString, c. done.
  - right. destruct IH as [IH|(q & x & Hq & Hx)]; [discriminate|].
    exists (String c q), x. by rewrite Hq.
Qed.

Lemma trimEnd_allWhiteSpace (w : string) :
  allWhiteSpace w = true -> Js.trimEnd w = EmptyString.
Proof.
  induction w as [|c w IH]; [done|]. simpl. intros [Hc Hw]%andb_true_iff.
  by rewrite Hc, IH.
Qed.

Lemma trimEnd_app_ws (s w : string) :
  allWhiteSpace w = true -> Js.trimEnd (s +:+ w) = Js.trimEnd s.
Proof.
  intros Hw. induction s as [|c s IH].
  - rewrite app_empty_l. by apply trimEnd_allWhiteSpace.
  - rewrite app_cons. simpl. by rewrite IH.
Qed.

Lemma trimEnd_keeps_prefix (a b : string) (c : ascii) :
  Js.isWhiteSpace c = false ->
  Js.trimEnd (a +:+ String c b) = a +:+ String c (Js.trimEnd b).
Proof.
  intros Hc. induction a as [|x a IH].
  - rewrite !app_empty_l. simpl. by rewrite Hc.
  - rewrite !app_cons. simpl. rewrite IH.
    destruct a; rewrite ?app_empty_l, ?app_cons; simpl; by rewrite andb_false_r.
Qed.

Lemma trimEnd_fixed (s : string) : endsNonWs s -> Js.trimEnd s = s.
Proof.
  intros (q & c & -> & Hc). by rewrite trimEnd_keeps_prefix.
Qed.

Lemma trimEnd_idem (s : string) : Js.trimEnd (Js.trimEnd s) = Js.trimEnd s.
Proof.
  destruct (trimEnd_shape s) as [->|H]; [done|]. by apply trimEnd_fixed.
Qed.

Lemma endsNonWs_prefix (a s : string) : endsNonWs s -> endsNonWs (a +:+ s).
Proof.
  intros (q & c & -> & Hc). exists (a +:+ q), c. by rewrite app_assoc_str.
Qed.

Lemma endsNonWs_not_lf (s p : string) :
  endsNonWs s -> s <> p +:+ String Js.LF EmptyString.
Proof.
  intros (q & c & -> & Hc) H. apply snoc_inj in H as [_ ->]. discriminate Hc.
Qed.

(** ** [join] *)

Lemma join_cons (sep s : string) (l : list string) :
  l <> [] -> Js.join sep (s :: l) = s +:+ sep +:+ Js.join sep l.
Proof. destruct l; done. Qed.

Lemma join_endsNonWs (sep : string) (l : list string) :
  l <> [] -> Forall endsNonWs l -> endsNonWs (Js.join sep l).
Proof.
  induction l as [|s l IH]; [done|]. intros _ Hall.
  inversion Hall as [|? ? Hs Hl]; subst.
  destruct l as [|s' l]; [done|].
  rewrite join_cons by done.
  apply endsNonWs_prefix, endsNonWs_prefix, IH; done.
Qed.

(* ================================================================== *)
(** * MessageContext: the canonical string *)
(* ================================================================== *)

Lemma getHeader_lower (ctx : MessageContext.t) (h : string) :
  MessageContext.getHeader ctx (Js.toLowerCase h) = MessageContext.getHeader ctx h.
Proof. unfold MessageContext.getHeader. by rewrite toLowerCase_idem. Qed.

Lemma canonicalLine_present (ctx : MessageContext.t) (h : string) (values : list string) :
  MessageContext.getHeader ctx h = Ok (Some values) ->
  MessageContext.canonicalLine ctx h
  = Ok (Js.trimEnd (Js.toLowerCase h +:+ ": " +:+ Js.join ", " values)).
Proof.
  intros H. unfold MessageContext.canonicalLine. rewrite getHeader_lower, H. reflexivity.
Qed.

Lemma canonicalLine_absent (ctx : MessageContext.t) (h : string) :
  MessageContext.getHeader ctx h = Ok None ->
  MessageContext.canonicalLine ctx h
  = Err (VerificationError ("attempted to sign/verify missing header '" +:+ h +:+ "'")).
Proof.
  intros H. unfold MessageContext.canonicalLine. rewrite getHeader_lower, H. reflexivity.
Qed.

Lemma canonicalLine_response_target (ctx : MessageContext.t) (h : string) :
  Js.toLowerCase h = "(request-target)" ->
  HttpMessage.requestTarget (MessageContext.message ctx) = None ->
  MessageContext.canonicalLine ctx h
  = Err (ConfigurationError "BUG: attempted to sign/verify (request-target) for response").
Proof.
  intros Hh Hrt. unfold MessageContext.canonicalLine, MessageContext.getHeader.
  rewrite toLowerCase_idem, Hh. simpl.
  unfold MessageContext.getRequestTarget. rewrite Hrt. reflexivity.
Qed.

(** Where the value part sits in a line: after the colon, which the trim
    never reaches. *)
Lemma line_trim (name value : string) :
  Js.trimEnd (name +:+ ": " +:+ value)
  = name +:+ String ":" (Js.trimEnd (String " " value)).
Proof. apply (trimEnd_keeps_prefix name (String " " value) ":"). reflexivity. Qed.

Lemma line_endsNonWs (name value : string) :
  endsNonWs (Js.trimEnd (name +:+ ": " +:+ value)).
Proof.
  rewrite line_trim. apply endsNonWs_prefix.
  destruct (trimEnd_shape (String " " value)) as [->|(q & c & -> & Hc)].
  - by exists EmptyString, ":"%char.
  - by exists (String ":" q), c.
Qed.

Lemma line_exact (name value : string) :
  endsNonWs value ->
  Js.trimEnd (name +:+ ": " +:+ value) = name +:+ ": " +:+ value.
Proof.
  intros H. apply trimEnd_fixed. by apply endsNonWs_prefix, endsNonWs_prefix.
Qed.

Lemma line_empty (name : string) :
  Js.trimEnd (name +:+ ": " +:+ EmptyString) = name +:+ ":".
Proof. by rewrite line_trim. Qed.

Lemma canonicalLine_endsNonWs (ctx : MessageContext.t) (h l : string) :
  MessageContext.canonicalLine ctx h = Ok l -> endsNonWs l.
Proof.
  unfold MessageContext.canonicalLine.
  destruct (MessageContext.getHeader ctx (Js.toLowerCase h)) as [[vs|]|e]; simpl;
    intros H; inversion H; subst.
  apply line_endsNonWs.
Qed.

Lemma canonicalString_no_trailing_newline (ctx : MessageContext.t) (H : list string)
    (s p : string) :
  MessageContext.canonicalString ctx H = Ok s -> s <> p +:+ String Js.LF EmptyString.
Proof.
  unfold MessageContext.canonicalString.
  destruct (mapR (MessageContext.canonicalLine ctx) H) as [lines|e] eqn:Hl; simpl;
    intros Hs; inversion Hs; subst; clear Hs.
  apply mapR_ok_inv in Hl.
  destruct lines as [|l lines].
  - simpl. intros E. destruct p; discriminate E.
  - apply endsNonWs_not_lf, join_endsNonWs; [done|].
    clear -Hl. induction Hl as [|h l' hs ls Hh _ IH]; constructor; [|done].
    by eapply canonicalLine_endsNonWs.
Qed.

(** C1 (amended). When every name of the ordered list [H] has values in
    the context, [canonicalString] returns one line per name in the order
    of [H], joined by single newlines and without a trailing newline;
    each line is the lower-cased name, a colon and a space, then the
    values joined with comma and space, with the trailing white space of
    the line removed. So a joined value that does not end in white space
    is emitted as it is, an empty one leaves the name and the colon, and
    the reference input yields the seven reference lines. *)
Theorem canonicalString_lines :
  forall (ctx : MessageContext.t) (H : list string) (values : string -> list string),
    Forall (fun h => MessageContext.getHeader ctx h = Ok (Some (values h))) H ->
    MessageContext.canonicalString ctx H
    = Ok (Js.join (String Js.LF EmptyString)
            (List.map (fun h => Js.trimEnd (Js.toLowerCase h +:+ ": "
                                            +:+ Js.join ", " (values h))) H))
    /\ (forall s p, MessageContext.canonicalString ctx H = Ok s ->
                    s <> p +:+ String Js.LF EmptyString)
    /\ (forall name value, endsNonWs value ->
          Js.trimEnd (name +:+ ": " +:+ value) = name +:+ ": " +:+ value)
    /\ (forall name, Js.trimEnd (name +:+ ": " +:+ EmptyString) = name +:+ ":")
    /\ MessageContext.canonicalString Example.referenceContext Example.referenceHeaders
       = Ok (Js.join (String Js.LF EmptyString) Example.referenceLines).
Proof.
  intros ctx H values Hall. repeat split.
  - unfold MessageContext.canonicalString.
    rewrite (mapR_ok_map _ (fun h => Js.trimEnd (Js.toLowerCase h +:+ ": "
                                       +:+ Js.join ", " (values h)))); [reflexivity|].
    eapply List.Forall_impl; [|exact Hall]. intros h Hh. by apply canonicalLine_present.
  - intros s p. apply canonicalString_no_trailing_newline.
  - apply line_exact.
  - apply line_empty.
Qed.

Lemma canonicalString_lines_witness :
  MessageContext.canonicalString Example.referenceContext Example.referenceHeaders
  = Ok (Js.join (String Js.LF EmptyString)
          (List.map (fun h => Js.trimEnd (Js.toLowerCase h +:+ ": "
                              +:+ Js.join ", " (Example.referenceValues h)))
                    Example.referenceHeaders)).
Proof.
  apply (canonicalString_lines Example.referenceContext Example.referenceHeaders
           Example.referenceValues).
  repeat constructor.
Defined.

(** C1 as stated fails on a value that ends in a space: the line emitted
    for [x-pad: "v "] is not the name, colon, space and joined values. *)
Lemma canonicalString_lines_counterexample :
  MessageContext.getHeader Example.paddedContext "x-pad" = Ok (Some ["v "])
  /\ MessageContext.canonicalString Example.paddedContext ["x-pad"] = Ok "x-pad: v"
  /\ "x-pad: v" <> Js.toLowerCase "x-pad" +:+ ": " +:+ Js.join ", " ["v "].
Proof. repeat split; vm_compute; congruence. Qed.

(** C9 (amended). [canonicalString] raises at the first name [h] of the
    list that has no value: a VerificationError naming [h] as it was
    given, except that the pseudo-header (request-target) on a message
    without request target raises the ConfigurationError of
    [getRequestTarget]. *)
Theorem canonicalString_missing_header :
  forall (ctx : MessageContext.t) (pre post : list string) (h : string),
    Forall (fun p => exists vs, MessageContext.getHeader ctx p = Ok (Some vs)) pre ->
    (MessageContext.getHeader ctx h = Ok None ->
     MessageContext.canonicalString ctx (pre ++ h :: post)
     = Err (VerificationError
              ("attempted to sign/verify missing header '" +:+ h +:+ "'")))
    /\ (Js.toLowerCase h = "(request-target)" ->
        HttpMessage.requestTarget (MessageContext.message ctx) = None ->
        MessageContext.canonicalString ctx (pre ++ h :: post)
        = Err (ConfigurationError
                 "BUG: attempted to sign/verify (request-target) for response")).
Proof.
  intros ctx pre post h Hpre.
  assert (Hlines : Forall (fun p => exists l, MessageContext.canonicalLine ctx p = Ok l) pre).
  { eapply List.Forall_impl; [|exact Hpre]. intros p [vs Hp].
    eexists. by apply canonicalLine_present. }
  split.
  - intros Hh. unfold MessageContext.canonicalString.
    erewrite mapR_first_error; [reflexivity|exact Hlines|].
    by apply canonicalLine_absent.
  - intros Hh Hrt. unfold MessageContext.canonicalString.
    erewrite mapR_first_error; [reflexivity|exact Hlines|].
    by apply canonicalLine_response_target.
Qed.

Lemma canonicalString_missing_header_witness :
  MessageContext.canonicalString Example.referenceContext ["host"; "X-Absent"; "date"]
  = Err (VerificationError "attempted to sign/verify missing header 'X-Absent'")
  /\ MessageContext.canonicalString Example.responseContext
       ["content-type"; "(Request-Target)"]
     = Err (ConfigurationError "BUG: attempted to sign/verify (request-target) for response").
Proof.
  split.
  - apply (canonicalString_missing_header Example.referenceContext ["host"] ["date"] "X-Absent").
    + repeat constructor. by eexists.
    + reflexivity.
  - apply (canonicalString_missing_header Example.responseContext ["content-type"] []
             "(Request-Target)").
    + repeat constructor. by eexists.
    + reflexivity.
    + reflexivity.
Defined.

(** C9 as stated fails for (request-target): on a response the error is
    a ConfigurationError, not a VerificationError. *)
Lemma canonicalString_missing_header_counterexample :
  HttpMessage.requestTarget (MessageContext.message Example.responseContext) = None
  /\ MessageContext.canonicalString Example.responseContext ["(request-target)"]
     = Err (ConfigurationError "BUG: attempted to sign/verify (request-target) for response")
  /\ isVerificationError
       (MessageContext.canonicalString Example.responseContext ["(request-target)"])
     = false.
Proof. repeat split. Qed.

(** C10. Every line [canonicalString] emits is right-trimmed, whatever
    the value: no emitted line ends in white space, and two contexts
    whose joined values differ only in trailing white space have the same
    canonical string, the one built from the values without it. *)
Theorem canonicalString_right_trims :
  (forall (ctx : MessageContext.t) (h l : string),
      MessageContext.canonicalLine ctx h = Ok l -> endsNonWs l /\ Js.trimEnd l = l)
  /\ (forall (ctx1 ctx2 : MessageContext.t) (H : list string) (v w1 w2 : string -> string),
        Forall (fun h => exists vs1 vs2,
                    MessageContext.getHeader ctx1 h = Ok (Some vs1)
                    /\ MessageContext.getHeader ctx2 h = Ok (Some vs2)
                    /\ Js.join ", " vs1 = v h +:+ w1 h
                    /\ Js.join ", " vs2 = v h +:+ w2 h
                    /\ allWhiteSpace (w1 h) = true
                    /\ allWhiteSpace (w2 h) = true) H ->
        MessageContext.canonicalString ctx1 H = MessageContext.canonicalString ctx2 H
        /\ MessageContext.canonicalString ctx1 H
           = Ok (Js.join (String Js.LF EmptyString)
                   (List.map (fun h => Js.trimEnd (Js.toLowerCase h +:+ ": " +:+ v h)) H))).
Proof.
  split.
  - intros ctx h l Hl. pose proof (canonicalLine_endsNonWs _ _ _ Hl) as He.
    split; [done|]. by apply trimEnd_fixed.
  - intros ctx1 ctx2 H v w1 w2 Hall.
    assert (Hline : forall ctx (w : string -> string),
      Forall (fun h => exists vs, MessageContext.getHeader ctx h = Ok (Some vs)
                          /\ Js.join ", " vs = v h +:+ w h
                          /\ allWhiteSpace (w h) = true) H ->
      MessageContext.canonicalString ctx H
      = Ok (Js.join (String Js.LF EmptyString)
              (List.map (fun h => Js.trimEnd (Js.toLowerCase h +:+ ": " +:+ v h)) H))).
    { intros ctx w Hw. unfold MessageContext.canonicalString.
      rewrite (mapR_ok_map _ (fun h => Js.trimEnd (Js.toLowerCase h +:+ ": " +:+ v h)));
        [reflexivity|].
      eapply List.Forall_impl; [|exact Hw]. intros h (vs & Hg & Hj & Hws).
      rewrite (canonicalLine_present _ _ _ Hg), Hj. f_equal.
      rewrite <- !app_assoc_str. by apply trimEnd_app_ws. }
    rewrite (Hline ctx1 w1), (Hline ctx2 w2); [done| |].
    + eapply List.Forall_impl; [|exact Hall]. intros h (vs1 & vs2 & ? & ? & ? & ? & ? & ?).
      by exists vs2.
    + eapply List.Forall_impl; [|exact Hall]. intros h (vs1 & vs2 & ? & ? & ? & ? & ? & ?).
      by exists vs1.
Qed.

Lemma canonicalString_right_trims_witness :
  MessageContext.canonicalString Example.paddedContext ["x-pad"]
  = MessageContext.canonicalString Example.unpaddedContext ["x-pad"].
Proof.
  apply (proj2 canonicalString_right_trims Example.paddedContext Example.unpaddedContext
           ["x-pad"] (fun _ => "v") (fun _ => " ") (fun _ => EmptyString)).
  repeat constructor. exists ["v "], ["v"]. repeat split.
Defined.

(* ================================================================== *)
(** * Strings: search, slice and split *)
(* ================================================================== *)

Lemma search_none (p : ascii -> bool) (s : string) :
  anyChar p s = false -> Js.search p s = (-1)%Z.
Proof.
  induction s as [|c s IH]; [done|]. simpl. intros [Hc Hs]%orb_false_iff.
  rewrite Hc, IH by done. reflexivity.
Qed.

Lemma search_bounds (p : ascii -> bool) (s : string) :
  (-1 <= Js.search p s < Js.len s)%Z.
Proof.
  unfold Js.len. induction s as [|c s IH]; simpl; [lia|].
  destruct (p c); [lia|].
  destruct (Js.search p s <? 0)%Z eqn:E; lia.
Qed.

Lemma search_some (p : ascii -> bool) (s : string) :
  anyChar p s = true -> (0 <= Js.search p s)%Z.
Proof.
  induction s as [|c s IH]; [done|]. simpl.
  destruct (p c); [lia|]. simpl. intros Hs. specialize (IH Hs).
  destruct (Js.search p s <? 0)%Z eqn:E; lia.
Qed.

Lemma search_neg_none (p : ascii -> bool) (s : string) :
  (Js.search p s =? -1)%Z = true -> anyChar p s = false.
Proof.
  intros H. destruct (anyChar p s) eqn:E; [|done].
  apply search_some in E. lia.
Qed.

Lemma search_app (p : ascii -> bool) (a b : string) (c : ascii) :
  anyChar p a = false -> p c = true ->
  Js.search p (a +:+ String c b) = Js.len a.
Proof.
  unfold Js.len. intros Ha Hc. induction a as [|x a IH].
  - rewrite app_empty_l. simpl. by rewrite Hc.
  - simpl in Ha. apply orb_false_iff in Ha as [Hx Ha].
    rewrite app_cons. simpl. rewrite Hx, IH by done.
    destruct (Z.of_nat (String.length a) <? 0)%Z eqn:E; lia.
Qed.

Lemma anyChar_app (p : ascii -> bool) (a b : string) :
  anyChar p (a +:+ b) = anyChar p a || anyChar p b.
Proof.
  induction a as [|x a IH]; [done|]. rewrite app_cons. simpl. by rewrite IH, orb_assoc.
Qed.

Lemma substring_prefix (a b : string) : substring 0 (String.length a) (a +:+ b) = a.
Proof.
  induction a as [|x a IH].
  - rewrite app_empty_l. by destruct b.
  - rewrite app_cons. simpl. by rewrite IH.
Qed.

Lemma substring_all (s : string) : substring 0 (String.length s) s = s.
Proof. rewrite <- (app_empty_r s) at 2. apply substring_prefix. Qed.

Lemma substring_suffix (a b : string) (n : nat) :
  substring (String.length a) n (a +:+ b) = substring 0 n b.
Proof. induction a as [|x a IH]; [done|]. rewrite app_cons. simpl. exact IH. Qed.

Lemma len_app (a b : string) : Js.len (a +:+ b) = (Js.len a + Js.len b)%Z.
Proof. unfold Js.len. rewrite app_length_str. lia. Qed.

Lemma len_nonneg (s : string) : (0 <= Js.len s)%Z.
Proof. unfold Js.len. lia. Qed.

Lemma slice_prefix (a b : string) : Js.slice (a +:+ b) 0 (Js.len a) = a.
Proof.
  unfold Js.slice. rewrite len_app. pose proof (len_nonneg a). pose proof (len_nonneg b).
  replace (0 <? 0)%Z with false by done.
  destruct (Js.len a <? 0)%Z eqn:E; [lia|].
  rewrite Z.min_l by lia. rewrite (Z.min_l (Js.len a)) by lia.
  rewrite Z.sub_0_r. unfold Js.len. rewrite Nat2Z.id. apply substring_prefix.
Qed.

Lemma sliceFrom_suffix (a b : string) : Js.sliceFrom (a +:+ b) (Js.len a) = b.
Proof.
  unfold Js.sliceFrom, Js.slice. rewrite len_app.
  pose proof (len_nonneg a). pose proof (len_nonneg b).
  destruct (Js.len a <? 0)%Z eqn:E; [lia|].
  destruct (Js.len a + Js.len b <? 0)%Z eqn:E2; [lia|].
  rewrite Z.min_l by lia. rewrite Z.min_id.
  replace (Js.len a + Js.len b - Js.len a)%Z with (Js.len b) by lia.
  unfold Js.len. rewrite !Nat2Z.id. rewrite substring_suffix. apply substring_all.
Qed.

Lemma slice_unquote (s : string) : Js.slice (Js.quoted s) 1 (-1) = s.
Proof.
  unfold Js.slice, Js.quoted, Js.len. simpl String.length. rewrite app_length_str.
  simpl String.length.
  replace (1 <? 0)%Z with false by done. replace (-1 <? 0)%Z with true by done.
  rewrite Z.min_l by lia. rewrite Z.max_l by lia.
  replace (Z.to_nat 1) with 1%nat by done.
  replace (Z.to_nat (Z.of_nat (S (String.length s + 1)) + -1 - 1)) with (String.length s) by lia.
  simpl. apply substring_prefix.
Qed.

Lemma startsWith_quoted (s : string) : Js.startsWith (Js.quoted s) Signature.DQ = true.
Proof. unfold Js.startsWith, Js.quoted. simpl. by destruct (s +:+ _). Qed.

Lemma endsWith_snoc (s : string) (c : ascii) :
  Js.endsWith (s +:+ String c EmptyString) (String c EmptyString) = true.
Proof.
  unfold Js.endsWith. rewrite len_app.
  replace (Js.len (String c EmptyString)) with 1%Z by done.
  replace (Js.len s + 1 - 1)%Z with (Js.len s) by lia.
  replace (Js.len s + 1)%Z with (Js.len (s +:+ String c EmptyString)) by (rewrite len_app; done).
  fold (Js.sliceFrom (s +:+ String c EmptyString) (Js.len s)).
  rewrite sliceFrom_suffix, String.eqb_refl, app_length_str.
  change (String.length (String c EmptyString)) with 1%nat.
  apply andb_true_iff. split; [done|]. apply Nat.leb_le. lia.
Qed.

Lemma endsWith_quoted (s : string) : Js.endsWith (Js.quoted s) Signature.DQ = true.
Proof.
  unfold Js.quoted. change (String Js.DQUOTE (s +:+ String Js.DQUOTE EmptyString))
    with ((String Js.DQUOTE s) +:+ String Js.DQUOTE EmptyString).
  apply endsWith_snoc.
Qed.

Lemma parseStringField_quoted (s : string) :
  Signature.parseStringField (Js.quoted s) = Ok s.
Proof.
  unfold Signature.parseStringField.
  by rewrite startsWith_quoted, endsWith_quoted, slice_unquote.
Qed.

(** ** [split] *)

Lemma split_nonempty (c : ascii) (s : string) : Js.split c s <> [].
Proof.
  induction s as [|x s IH]; [done|]. simpl.
  destruct (Ascii.eqb x c); [done|]. by destruct (Js.split c s).
Qed.

Lemma split_app_sep (c : ascii) (a b : string) :
  Js.split c (a +:+ String c b) = Js.split c a ++ Js.split c b.
Proof.
  induction a as [|x a IH].
  - rewrite app_empty_l. simpl. by rewrite Ascii.eqb_refl.
  - rewrite app_cons. simpl. rewrite IH.
    destruct (Ascii.eqb x c); [done|].
    pose proof (split_nonempty c a). by destruct (Js.split c a).
Qed.

Lemma split_none (c : ascii) (s : string) :
  occurs c s = false -> Js.split c s = [s].
Proof.
  unfold occurs. induction s as [|x s IH]; [done|]. simpl.
  intros [Hx Hs]%orb_false_iff. rewrite Ascii.eqb_sym, Hx, IH by done. done.
Qed.

Lemma split_head_cons (c x : ascii) (s : string) :
  Ascii.eqb x c = false ->
  exists piece pieces, Js.split c (String x s) = String x piece :: pieces.
Proof.
  intros Hx. simpl. rewrite Hx. pose proof (split_nonempty c s).
  destruct (Js.split c s) as [|p ps]; [done|]. by exists p, ps.
Qed.

(** A character other than the separator stays inside some piece. *)
Lemma split_keeps_char (c t : ascii) (s : string) :
  Ascii.eqb t c = false -> occurs t s = true ->
  exists piece, In piece (Js.split c s) /\ occurs t piece = true.
Proof.
  unfold occurs. intros Htc. induction s as [|x s IH]; [done|]. simpl.
  destruct (Ascii.eqb x c) eqn:Hxc.
  - apply Ascii.eqb_eq in Hxc as ->. rewrite Htc. simpl. intros Hs.
    destruct (IH Hs) as (piece & Hin & Hocc). exists piece. split; [by right|done].
  - pose proof (split_nonempty c s).
    destruct (Js.split c s) as [|p ps] eqn:Hsp; [done|].
    destruct (Ascii.eqb t x) eqn:Htx; simpl.
    + intros _. exists (String x p). split; [by left|]. simpl. by rewrite Htx.
    + intros Hs. destruct (IH Hs) as (piece & [Heq|Hin] & Hocc).
      * subst piece. exists (String x p). split; [by left|]. simpl. by rewrite Htx.
      * exists piece. split; [by right|done].
Qed.

(* ================================================================== *)
(** * Signature: the strict parser *)
(* ================================================================== *)

Lemma isWhiteSpace_lower (c : ascii) : Js.isWhiteSpace (Js.lowerChar c) = Js.isWhiteSpace c.
Proof. destruct c as [[] [] [] [] [] [] [] []]; reflexivity. Qed.

Lemma anyChar_ws_lower (s : string) :
  anyChar Js.isWhiteSpace (Js.toLowerCase s) = anyChar Js.isWhiteSpace s.
Proof. induction s as [|c s IH]; [done|]. simpl. by rewrite isWhiteSpace_lower, IH. Qed.

Lemma isEmpty_lower (s : string) : Js.isEmpty (Js.toLowerCase s) = Js.isEmpty s.
Proof. by destruct s. Qed.

Lemma pairKey_eq (name value : string) :
  occurs "=" name = false -> pairKey (name +:+ "=" +:+ value) = name.
Proof.
  intros Hn. unfold pairKey, Js.indexOf.
  change (name +:+ "=" +:+ value) with (name +:+ String "=" value).
  rewrite search_app; [apply slice_prefix|exact Hn|reflexivity].
Qed.

Lemma pairValue_eq (name value : string) :
  occurs "=" name = false -> pairValue (name +:+ "=" +:+ value) = value.
Proof.
  intros Hn. unfold pairValue, Js.indexOf.
  change (name +:+ "=" +:+ value) with (name +:+ String "=" value).
  rewrite search_app; [|exact Hn|reflexivity].
  change (name +:+ String "=" value) with (name +:+ "=" +:+ value).
  rewrite <- app_assoc_str.
  replace (Js.len name + 1)%Z with (Js.len (name +:+ "=")) by (rewrite len_app; done).
  apply sliceFrom_suffix.
Qed.

Lemma search_cons (p : ascii -> bool) (c : ascii) (s : string) :
  Js.search p (String c s)
  = if p c then 0%Z
    else if (Js.search p s <? 0)%Z then (-1)%Z else (Js.search p s + 1)%Z.
Proof. reflexivity. Qed.

Lemma pairKey_head (w : ascii) (q : string) :
  Ascii.eqb "=" w = false -> (0 <= Js.indexOf "=" (String w q))%Z ->
  exists r, pairKey (String w q) = String w r.
Proof.
  intros Hw. unfold pairKey, Js.indexOf. rewrite search_cons, Hw.
  pose proof (search_bounds (Ascii.eqb "=") q) as Hb.
  destruct (Js.search (Ascii.eqb "=") q <? 0)%Z eqn:E; [lia|]. intros _.
  unfold Js.slice. replace (0 <? 0)%Z with false by done.
  destruct (Js.search (Ascii.eqb "=") q + 1 <? 0)%Z eqn:E2; [lia|].
  unfold Js.len in *. simpl String.length.
  rewrite Z.min_l by lia. rewrite Z.min_l by lia. rewrite Z.sub_0_r.
  replace (Z.to_nat (Js.search (Ascii.eqb "=") q + 1))
    with (S (Z.to_nat (Js.search (Ascii.eqb "=") q))) by lia.
  simpl. eauto.
Qed.

(** What a pair that [pairsToMap] accepts looks like, and what it leaves
    in the map. *)
Lemma addPair_ok (out out' : gmap string string) (p : string) :
  Signature.addPair out p = Ok out' ->
  (0 <= Js.indexOf "=" p)%Z
  /\ anyChar Js.isWhiteSpace (pairKey p) = false
  /\ Js.isEmpty (pairValue p) = false
  /\ out !! pairKey p = None
  /\ out' = <[pairKey p := pairValue p]> out.
Proof.
  unfold Signature.addPair. fold (pairKey p). fold (pairValue p).
  destruct (Js.indexOf "=" p <? 0)%Z eqn:Hidx; [done|].
  destruct (Js.isEmpty (pairKey p)) eqn:Hk; [done|].
  destruct (Js.isEmpty (pairValue p)) eqn:Hv; [done|]. simpl.
  destruct (Js.search Js.isWhiteSpace (pairKey p) =? -1)%Z eqn:Hws; [|done]. simpl.
  case_bool_decide as Hdup; [done|]. intros [= <-].
  split; [lia|]. split; [by apply search_neg_none|]. split; [done|]. split; [|done].
  destruct (out !! pairKey p) eqn:E; [|done]. exfalso. apply Hdup. by eexists.
Qed.

Lemma forEachPair_ok (ps : list string) (out fm : gmap string string) :
  Signature.forEachPair out ps = Ok fm ->
  (forall k v, out !! k = Some v -> fm !! k = Some v)
  /\ Forall (fun p => (0 <= Js.indexOf "=" p)%Z
                      /\ anyChar Js.isWhiteSpace (pairKey p) = false
                      /\ Js.isEmpty (pairValue p) = false
                      /\ fm !! pairKey p = Some (pairValue p)
                      /\ out !! pairKey p = None) ps
  /\ NoDup (List.map pairKey ps).
Proof.
  revert out. induction ps as [|p ps IH]; intros out H; simpl in H.
  - inversion H; subst. repeat split; [done|constructor|constructor].
  - destruct (Signature.addPair out p) as [out1|e] eqn:Hadd; simpl in H; [|done].
    apply addPair_ok in Hadd as (Hidx & Hws & Hv & Hfresh & ->).
    destruct (IH _ H) as (Hmono & Hall & Hnd).
    assert (Hp : fm !! pairKey p = Some (pairValue p)).
    { apply Hmono. apply lookup_insert_eq. }
    repeat split.
    + intros k v Hk. apply Hmono. rewrite lookup_insert_ne; [done|].
      intros <-. rewrite Hfresh in Hk. done.
    + constructor; [done|].
      eapply List.Forall_impl; [|exact Hall]. intros q (? & ? & ? & ? & Hq).
      repeat split; try done.
      apply lookup_insert_None in Hq as [Hq _]. done.
    + simpl. constructor; [|done]. intros Hin.
      apply list_elem_of_In, in_map_iff in Hin as (q & Hq & Hin).
      rewrite Forall_forall in Hall. destruct (Hall q) as (_ & _ & _ & _ & Hnone).
      { by apply list_elem_of_In. }
      rewrite Hq, lookup_insert_eq in Hnone. done.
Qed.

Lemma pairsToMap_param (header name value : string) (fm : gmap string string) :
  Signature.pairsToMap (Js.split "," header) = Ok fm ->
  hasParam header (name +:+ "=" +:+ value) -> occurs "=" name = false ->
  fm !! name = Some value /\ Js.isEmpty value = false.
Proof.
  intros Hfm Hin Hn. apply forEachPair_ok in Hfm as (_ & Hall & _).
  rewrite Forall_forall in Hall.
  destruct (Hall (name +:+ "=" +:+ value)) as (_ & _ & Hv & Hlook & _).
  { by apply list_elem_of_In. }
  rewrite pairKey_eq, pairValue_eq in Hlook by done.
  rewrite pairValue_eq in Hv by done. done.
Qed.

(** ** Every failure of the parser is a VerificationError *)

Lemma parseStringField_error (v : string) (e : Error) :
  Signature.parseStringField v = Err e -> exists m, e = VerificationError m.
Proof. unfold Signature.parseStringField. verification_only. Qed.

Lemma parseIntField_error (v : string) (e : Error) :
  Signature.parseIntField v = Err e -> exists m, e = VerificationError m.
Proof. unfold Signature.parseIntField. verification_only. Qed.

Lemma parseDecimalField_error (v : string) (e : Error) :
  Signature.parseDecimalField v = Err e -> exists m, e = VerificationError m.
Proof. unfold Signature.parseDecimalField. verification_only. Qed.

Lemma addPair_error (out : gmap string string) (p : string) (e : Error) :
  Signature.addPair out p = Err e -> exists m, e = VerificationError m.
Proof. unfold Signature.addPair. verification_only. Qed.

Lemma pairsToMap_error (ps : list string) (e : Error) :
  Signature.pairsToMap ps = Err e -> exists m, e = VerificationError m.
Proof.
  unfold Signature.pairsToMap. generalize (∅ : gmap string string).
  induction ps as [|p ps IH]; intros out H; simpl in H; [done|].
  destruct (Signature.addPair out p) as [out1|e1] eqn:Hadd; simpl in H.
  - by eapply IH.
  - inversion H; subst. by eapply addPair_error.
Qed.

Lemma getKeyId_error (fm : gmap string string) (e : Error) :
  Signature.getKeyId fm = Err e -> exists m, e = VerificationError m.
Proof.
  unfold Signature.getKeyId. destruct (Js.truthy _); [apply parseStringField_error|].
  intros [= <-]. eauto.
Qed.

Lemma getSignature_error (fm : gmap string string) (e : Error) :
  Signature.getSignature fm = Err e -> exists m, e = VerificationError m.
Proof.
  unfold Signature.getSignature. destruct (Js.truthy _); [|intros [= <-]; eauto].
  intros H. bind_error parseStringField_error. revert H. verification_only.
Qed.

Lemma getHeaders_error (fm : gmap string string) (e : Error) :
  Signature.getHeaders fm = Err e -> exists m, e = VerificationError m.
Proof.
  unfold Signature.getHeaders. destruct (Js.truthy _); [|done].
  intros H. bind_error parseStringField_error. revert H. verification_only.
Qed.

Lemma getSignatureAlgorithm_error (fm : gmap string string) (e : Error) :
  Signature.getSignatureAlgorithm fm = Err e -> exists m, e = VerificationError m.
Proof.
  unfold Signature.getSignatureAlgorithm. destruct (Js.truthy _); [|done].
  intros H. bind_error parseStringField_error.
  destruct (List.find _ Enum.signatureAlgorithms); [done|]. inversion H; subst. eauto.
Qed.

Lemma getCreated_error (fm : gmap string string) (e : Error) :
  Signature.getCreated fm = Err e -> exists m, e = VerificationError m.
Proof.
  unfold Signature.getCreated. destruct (Js.truthy _); [|done].
  intros H. bind_error parseIntField_error. done.
Qed.

Lemma getExpires_error (fm : gmap string string) (e : Error) :
  Signature.getExpires fm = Err e -> exists m, e = VerificationError m.
Proof.
  unfold Signature.getExpires. destruct (Js.truthy _); [|done].
  intros H. bind_error parseDecimalField_error. done.
Qed.

Lemma fromHeader_error (now : Date.t) (header : string) (atTime : option Date.t)
    (e : Error) :
  Signature.fromHeader now header atTime = Err e -> exists m, e = VerificationError m.
Proof.
  unfold Signature.fromHeader. intros H.
  bind_error pairsToMap_error. bind_error getKeyId_error.
  bind_error getSignature_error. bind_error getHeaders_error.
  bind_error getSignatureAlgorithm_error. bind_error getCreated_error.
  bind_error getExpires_error. done.
Qed.

(** What a successful parse went through. *)
Lemma fromHeader_ok (now : Date.t) (header : string) (atTime : option Date.t)
    (sig : Signature.t) :
  Signature.fromHeader now header atTime = Ok sig ->
  exists fm, Signature.pairsToMap (Js.split "," header) = Ok fm
    /\ Signature.getKeyId fm = Ok (Signature.keyId sig)
    /\ Signature.getSignature fm = Ok (Signature.signature sig)
    /\ Signature.getHeaders fm = Ok (Signature.headers sig)
    /\ Signature.getSignatureAlgorithm fm = Ok (Signature.signatureAlgorithm sig)
    /\ Signature.getCreated fm = Ok (Signature.created sig)
    /\ Signature.getExpires fm = Ok (Signature.expires sig)
    /\ Signature.observedAt sig = default now atTime.
Proof.
  unfold Signature.fromHeader. intros H.
  destruct (Signature.pairsToMap _) as [fm|] eqn:E0; simpl in H; [|done].
  destruct (Signature.getKeyId fm) eqn:E1; simpl in H; [|done].
  destruct (Signature.getSignature fm) eqn:E2; simpl in H; [|done].
  destruct (Signature.getHeaders fm) eqn:E3; simpl in H; [|done].
  destruct (Signature.getSignatureAlgorithm fm) eqn:E4; simpl in H; [|done].
  destruct (Signature.getCreated fm) eqn:E5; simpl in H; [|done].
  destruct (Signature.getExpires fm) eqn:E6; simpl in H; [|done].
  inversion H; subst; simpl. exists fm. done.
Qed.

Lemma pairsToMap_no_empty_pair (ps : list string) (fm : gmap string string) :
  Signature.pairsToMap ps = Ok fm -> ~ In EmptyString ps.
Proof.
  intros Hfm Hin. apply forEachPair_ok in Hfm as (_ & Hall & _).
  rewrite Forall_forall in Hall. destruct (Hall EmptyString) as (Hidx & _).
  { by apply list_elem_of_In. }
  vm_compute in Hidx. by apply Hidx.
Qed.

Lemma isWhiteSpace_not_eq (w : ascii) :
  Js.isWhiteSpace w = true -> Ascii.eqb "=" w = false.
Proof. destruct (Ascii.eqb_spec "=" w) as [<-|]; [discriminate|done]. Qed.

Lemma isWhiteSpace_not_comma (w : ascii) :
  Js.isWhiteSpace w = true -> Ascii.eqb w "," = false.
Proof. destruct (Ascii.eqb_spec w ",") as [->|]; [discriminate|done]. Qed.

Lemma pairsToMap_no_leading_space (ps : list string) (fm : gmap string string)
    (w : ascii) (q : string) :
  Signature.pairsToMap ps = Ok fm -> Js.isWhiteSpace w = true -> ~ In (String w q) ps.
Proof.
  intros Hfm Hw Hin. apply forEachPair_ok in Hfm as (_ & Hall & _).
  rewrite Forall_forall in Hall. destruct (Hall (String w q)) as (Hidx & Hws & _).
  { by apply list_elem_of_In. }
  destruct (pairKey_head w q (isWhiteSpace_not_eq _ Hw) Hidx) as [r Hr].
  rewrite Hr in Hws. simpl in Hws. by rewrite Hw in Hws.
Qed.

(** The getters on a parameter that is present. *)
Lemma truthy_present (v : string) : Js.isEmpty v = false -> Js.truthy (Some v) = true.
Proof. unfold Js.truthy. by intros ->. Qed.

Lemma getKeyId_present (fm : gmap string string) (v : string) :
  fm !! "keyId" = Some v -> Js.isEmpty v = false ->
  Signature.getKeyId fm = Signature.parseStringField v.
Proof.
  intros H Hv. unfold Signature.getKeyId. rewrite H, truthy_present by done. reflexivity.
Qed.

Lemma getSignature_present (fm : gmap string string) (v : string) :
  fm !! "signature" = Some v -> Js.isEmpty v = false ->
  Signature.parseStringField v = Ok (Js.slice v 1 (-1)) \/ isOk (Signature.getSignature fm) = false.
Proof.
  intros H Hv. unfold Signature.getSignature. rewrite H, truthy_present by done. simpl.
  unfold Signature.parseStringField. destruct (_ || _); [by right|by left].
Qed.

Lemma getCreated_present (fm : gmap string string) (v : string) :
  fm !! "created" = Some v -> Js.isEmpty v = false ->
  isOk (Signature.getCreated fm) = isOk (Signature.parseIntField v).
Proof.
  intros H Hv. unfold Signature.getCreated. rewrite H, truthy_present by done. simpl.
  by destruct (Signature.parseIntField v).
Qed.

Lemma getExpires_present (fm : gmap string string) (v : string) :
  fm !! "expires" = Some v -> Js.isEmpty v = false ->
  isOk (Signature.getExpires fm) = isOk (Signature.parseDecimalField v).
Proof.
  intros H Hv. unfold Signature.getExpires. rewrite H, truthy_present by done. simpl.
  by destruct (Signature.parseDecimalField v).
Qed.

Lemma parseStringField_unquoted (v : string) :
  Js.startsWith v Signature.DQ = false \/ Js.endsWith v Signature.DQ = false ->
  isOk (Signature.parseStringField v) = false.
Proof.
  unfold Signature.parseStringField. intros [->| ->]; [done|]. by rewrite orb_true_r.
Qed.

Lemma getter_unquoted (fm : gmap string string) (name v : string) :
  In name ["keyId"; "algorithm"; "headers"; "signature"] ->
  fm !! name = Some v -> Js.isEmpty v = false ->
  isOk (Signature.parseStringField v) = false ->
  isOk (Signature.getKeyId fm) && isOk (Signature.getSignatureAlgorithm fm)
  && isOk (Signature.getHeaders fm) && isOk (Signature.getSignature fm) = false.
Proof.
  intros Hname Hlook Hv Hbad.
  destruct (Signature.parseStringField v) as [x|e] eqn:Hp; [done|].
  simpl in Hname. destruct Hname as [<-|[<-|[<-|[<-|[]]]]].
  - unfold Signature.getKeyId. rewrite Hlook, truthy_present by done.
    change (default EmptyString (Some v)) with v. by rewrite Hp.
  - unfold Signature.getSignatureAlgorithm at 1.
    rewrite Hlook, truthy_present by done.
    change (default EmptyString (Some v)) with v. rewrite Hp.
    simpl. by rewrite andb_false_r.
  - unfold Signature.getHeaders at 1.
    rewrite Hlook, truthy_present by done.
    change (default EmptyString (Some v)) with v. rewrite Hp.
    simpl. by rewrite !andb_false_r.
  - unfold Signature.getSignature at 1.
    rewrite Hlook, truthy_present by done.
    change (default EmptyString (Some v)) with v. rewrite Hp.
    simpl. by rewrite !andb_false_r.
Qed.

Lemma getHeaders_bad_piece (fm : gmap string string) (x piece : string) :
  fm !! "headers" = Some (Js.quoted x) ->
  In piece (Js.split " " x) ->
  Js.isEmpty piece = true \/ anyChar Js.isWhiteSpace piece = true ->
  isOk (Signature.getHeaders fm) = false.
Proof.
  intros Hlook Hin Hbad. unfold Signature.getHeaders.
  rewrite Hlook, truthy_present by done.
  change (default EmptyString (Some (Js.quoted x))) with (Js.quoted x).
  rewrite parseStringField_quoted. simpl.
  replace (existsb _ _) with true; [done|]. symmetry.
  apply existsb_exists. exists (Js.toLowerCase piece). split; [by apply in_map|].
  rewrite isEmpty_lower. destruct Hbad as [->|Hws]; [done|].
  apply orb_true_iff. right. apply negb_true_iff.
  apply search_some in Hws. rewrite <- anyChar_ws_lower in Hws || idtac.
  destruct (Js.search Js.isWhiteSpace (Js.toLowerCase piece) =? -1)%Z eqn:E; [|done].
  apply search_neg_none in E. rewrite anyChar_ws_lower in E.
  pose proof (search_none Js.isWhiteSpace piece E). lia.
Qed.

Lemma anyChar_cons (p : ascii -> bool) (c : ascii) (s : string) :
  anyChar p (String c s) = p c || anyChar p s.
Proof. reflexivity. Qed.

Lemma occurs_tab_ws (s : string) :
  occurs Js.TAB s = true -> anyChar Js.isWhiteSpace s = true.
Proof.
  unfold occurs. induction s as [|c s IH]; [done|]. rewrite !anyChar_cons.
  destruct (Ascii.eqb_spec Js.TAB c) as [<-|_]; [done|].
  intros Hs. rewrite (IH Hs). apply orb_true_r.
Qed.

(** C5. [Signature.fromHeader] raises a VerificationError on every input
    with a leading, trailing or doubled comma, a quoted [created] or
    [expires], an unquoted [keyId], [algorithm], [headers] or [signature],
    white space right after a comma, [created=01], [created=-1],
    [created=1234.56], [expires=.1], [expires=1.], [expires=1.2.3], a
    [headers] value with a leading space, two consecutive spaces or a
    tab, or a duplicated parameter name, whatever the other parameters. *)
Theorem fromHeader_strict_rejections :
  forall (now : Date.t) (header : string) (atTime : option Date.t),
    StrictViolation header ->
    exists msg, Signature.fromHeader now header atTime = Err (VerificationError msg).
Proof.
  intros now header atTime V.
  destruct (Signature.fromHeader now header atTime) as [sig|e] eqn:E;
    [exfalso|apply fromHeader_error in E as [m ->]; eauto].
  apply fromHeader_ok in E as (fm & Hfm & Hk & Hs & Hh & Ha & Hc & He & _).
  assert (Hgood : isOk (Signature.getKeyId fm) && isOk (Signature.getSignatureAlgorithm fm)
                  && isOk (Signature.getHeaders fm) && isOk (Signature.getSignature fm)
                  = true) by (by rewrite Hk, Ha, Hh, Hs).
  assert (Hcreated : isOk (Signature.getCreated fm) = true) by (by rewrite Hc).
  assert (Hexpires : isOk (Signature.getExpires fm) = true) by (by rewrite He).
  assert (Hheaders : isOk (Signature.getHeaders fm) = true) by (by rewrite Hh).
  pose proof (pairsToMap_param header) as Hparam.
  destruct V as [rest ->|rest ->|a b ->|name rest Hname Hin|name value Hname Hin Hbad
                |a b w Hw ->|Hin|Hin|Hin|Hin|Hin|Hin|x Hin|a b Hin|a b Hin
                |l1 l2 l3 name v1 v2 Hname Hsplit].
  - (* leading comma *)
    apply (pairsToMap_no_empty_pair _ _ Hfm). by left.
  - (* trailing comma *)
    apply (pairsToMap_no_empty_pair _ _ Hfm).
    change (rest +:+ ",") with (rest +:+ String "," EmptyString).
    rewrite split_app_sep. apply in_or_app. right. by left.
  - (* two consecutive commas *)
    apply (pairsToMap_no_empty_pair _ _ Hfm).
    change (a +:+ ",," +:+ b) with (a +:+ String "," (String "," b)).
    rewrite split_app_sep. apply in_or_app. right. by left.
  - (* a quoted number *)
    destruct Hname as [-> | ->];
      destruct (Hparam _ _ _ Hfm Hin eq_refl) as [Hlook Hv].
    + rewrite (getCreated_present _ _ Hlook Hv) in Hcreated. done.
    + rewrite (getExpires_present _ _ Hlook Hv) in Hexpires. done.
  - (* an unquoted string *)
    assert (Hn : occurs "=" name = false).
    { simpl in Hname. by destruct Hname as [<-|[<-|[<-|[<-|[]]]]]. }
    destruct (Hparam _ _ _ Hfm Hin Hn) as [Hlook Hv].
    rewrite (getter_unquoted fm name value Hname Hlook Hv) in Hgood; [done|].
    by apply parseStringField_unquoted.
  - (* white space after a comma *)
    change (a +:+ "," +:+ String w b) with (a +:+ String "," (String w b)) in Hfm.
    rewrite split_app_sep in Hfm.
    destruct (split_head_cons "," w b (isWhiteSpace_not_comma _ Hw)) as (piece & pieces & Hsp).
    apply (pairsToMap_no_leading_space _ _ w piece Hfm Hw).
    apply in_or_app. right. rewrite Hsp. by left.
  - destruct (Hparam "created" "01" fm Hfm Hin eq_refl) as [Hlook Hv].
    rewrite (getCreated_present _ _ Hlook Hv) in Hcreated. done.
  - destruct (Hparam "created" "-1" fm Hfm Hin eq_refl) as [Hlook Hv].
    rewrite (getCreated_present _ _ Hlook Hv) in Hcreated. done.
  - destruct (Hparam "created" "1234.56" fm Hfm Hin eq_refl) as [Hlook Hv].
    rewrite (getCreated_present _ _ Hlook Hv) in Hcreated. done.
  - destruct (Hparam "expires" ".1" fm Hfm Hin eq_refl) as [Hlook Hv].
    rewrite (getExpires_present _ _ Hlook Hv) in Hexpires. done.
  - destruct (Hparam "expires" "1." fm Hfm Hin eq_refl) as [Hlook Hv].
    rewrite (getExpires_present _ _ Hlook Hv) in Hexpires. done.
  - destruct (Hparam "expires" "1.2.3" fm Hfm Hin eq_refl) as [Hlook Hv].
    rewrite (getExpires_present _ _ Hlook Hv) in Hexpires. done.
  - (* headers with a leading space *)
    destruct (Hparam "headers" _ fm Hfm Hin eq_refl) as [Hlook _].
    rewrite (getHeaders_bad_piece fm _ EmptyString Hlook) in Hheaders; [done| |by left].
    by left.
  - (* headers with two consecutive spaces *)
    destruct (Hparam "headers" _ fm Hfm Hin eq_refl) as [Hlook _].
    rewrite (getHeaders_bad_piece fm _ EmptyString Hlook) in Hheaders; [done| |by left].
    change (a +:+ "  " +:+ b) with (a +:+ String " " (String " " b)).
    rewrite split_app_sep. apply in_or_app. right. by left.
  - (* headers with a tab *)
    destruct (Hparam "headers" _ fm Hfm Hin eq_refl) as [Hlook _].
    destruct (split_keeps_char " " Js.TAB (a +:+ String Js.TAB b)) as (piece & Hpiece & Hocc);
      [done| |].
    { unfold occurs. rewrite anyChar_app. simpl. by rewrite orb_true_r. }
    rewrite (getHeaders_bad_piece fm _ piece Hlook Hpiece) in Hheaders; [done|].
    right. by apply occurs_tab_ws.
  - (* a duplicated parameter *)
    apply forEachPair_ok in Hfm as (_ & _ & Hnd). rewrite Hsplit in Hnd.
    rewrite map_app in Hnd. simpl in Hnd. rewrite map_app in Hnd. simpl in Hnd.
    rewrite !pairKey_eq in Hnd by done.
    apply NoDup_app in Hnd as (_ & _ & Hnd). apply NoDup_cons in Hnd as [Hnot _].
    apply Hnot. apply list_elem_of_In, in_or_app. right. by left.
Qed.

Lemma fromHeader_strict_rejections_witness :
  Forall (fun h => exists msg,
              Signature.fromHeader (Date.Instant 0) h None = Err (VerificationError msg))
         (Example.rejected ++ [Example.tabbedHeader]).
Proof.
  pose (sigParam := Js.dq "signature='3UqQIVxNJfNm8E54n35RReP9Nv05a9dEZTxr/deog3g='").
  pose (keyParam := Js.dq "keyId='test'").
  unfold Example.rejected. simpl List.map. simpl app.
  repeat apply List.Forall_cons; try apply List.Forall_nil;
    apply fromHeader_strict_rejections.
  - by apply LeadingComma with (rest := keyParam +:+ "," +:+ sigParam).
  - by apply TrailingComma with (rest := keyParam +:+ "," +:+ sigParam).
  - by apply ConsecutiveCommas with (a := keyParam) (b := sigParam).
  - apply QuotedNumber with (name := "created") (rest := Js.dq "1234'"); [by left|has_param].
  - apply QuotedNumber with (name := "expires") (rest := Js.dq "1234'"); [by right|has_param].
  - apply UnquotedString with (name := "keyId") (value := "test");
      [by left|has_param|by left].
  - by apply SpaceAfterComma with (a := keyParam) (b := sigParam) (w := " "%char).
  - apply CreatedLeadingZero. has_param.
  - apply CreatedNegative. has_param.
  - apply CreatedFraction. has_param.
  - apply ExpiresLeadingPoint. has_param.
  - apply ExpiresTrailingPoint. has_param.
  - apply ExpiresTwoPoints. has_param.
  - apply HeadersLeadingSpace with (x := "content-type (request-target) host digest").
    has_param.
  - apply HeadersDoubleSpace with (a := "content-type (request-target) host") (b := "digest").
    has_param.
  - by apply DuplicateParameter
      with (l1 := []) (l2 := []) (l3 := [sigParam]) (name := "keyId")
           (v1 := Js.dq "'test'") (v2 := Js.dq "'test'").
  - apply HeadersTab with (a := "content-type (request-target) host") (b := "digest").
    has_param.
Defined.

(* ================================================================== *)
(** * Signature: the slack windows *)
(* ================================================================== *)

Lemma diffBelow_spec (a b : Date.t) (slack : Z) :
  Date.diffBelow a b slack = true
  <-> exists x y, Date.valueOf a = Some x /\ Date.valueOf b = Some y /\ (x - y < slack)%Z.
Proof.
  unfold Date.diffBelow. split.
  - destruct (Date.valueOf a) as [x|], (Date.valueOf b) as [y|]; try done.
    intros H%Z.ltb_lt. by exists x, y.
  - intros (x & y & -> & -> & H). by apply Z.ltb_lt.
Qed.

(** C7. A signature with a [created] timestamp has [validCreation] iff
    [created - observedAt < CREATED_SLACK], one with an [expires]
    timestamp has [validExpires] iff [observedAt - expires <
    EXPIRES_SLACK], both slacks being 60 000 ms; a comparison on an
    invalid date is false, as in JavaScript. An absent timestamp makes
    its check true. With [observedAt = 1 000 000 000 000] and [created]
    one second before [floor((observedAt + CREATED_SLACK) / 1000)]
    seconds the parsed signature has [validCreation], and one second
    after it has not. *)
Theorem slack_windows :
  Signature.CREATED_SLACK = 60000%Z /\ Signature.EXPIRES_SLACK = 60000%Z
  /\ (forall (sig : Signature.t) (c : Date.t),
        Signature.created sig = Some c ->
        (Signature.validCreation sig = true
         <-> exists x y, Date.valueOf c = Some x
                         /\ Date.valueOf (Signature.observedAt sig) = Some y
                         /\ (x - y < Signature.CREATED_SLACK)%Z))
  /\ (forall (sig : Signature.t) (e : Date.t),
        Signature.expires sig = Some e ->
        (Signature.validExpires sig = true
         <-> exists x y, Date.valueOf (Signature.observedAt sig) = Some x
                         /\ Date.valueOf e = Some y
                         /\ (x - y < Signature.EXPIRES_SLACK)%Z))
  /\ (forall sig : Signature.t,
        Signature.created sig = None -> Signature.validCreation sig = true)
  /\ (forall sig : Signature.t,
        Signature.expires sig = None -> Signature.validExpires sig = true)
  /\ (forall now : Date.t,
        let createdTimestamp :=
          ((Example.baseTime + Signature.CREATED_SLACK) / 1000 - 1)%Z in
        exists sig,
          Signature.fromHeader now (Example.slackHeader createdTimestamp)
            (Some (Date.Instant Example.baseTime)) = Ok sig
          /\ Signature.created sig = Some (Date.Instant (createdTimestamp * 1000))
          /\ Signature.validCreation sig = true)
  /\ (forall now : Date.t,
        let createdTimestamp :=
          ((Example.baseTime + Signature.CREATED_SLACK) / 1000 + 1)%Z in
        exists sig,
          Signature.fromHeader now (Example.slackHeader createdTimestamp)
            (Some (Date.Instant Example.baseTime)) = Ok sig
          /\ Signature.created sig = Some (Date.Instant (createdTimestamp * 1000))
          /\ Signature.validCreation sig = false).
Proof.
  split; [done|]. split; [done|]. split; [|split; [|split; [|split; [|split]]]].
  - intros sig c Hc. unfold Signature.validCreation. rewrite Hc. apply diffBelow_spec.
  - intros sig e He. unfold Signature.validExpires. rewrite He. apply diffBelow_spec.
  - intros sig Hc. unfold Signature.validCreation. by rewrite Hc.
  - intros sig He. unfold Signature.validExpires. by rewrite He.
  - intros now ts. eexists. split; [vm_compute; reflexivity|]. split; reflexivity.
  - intros now ts. eexists. split; [vm_compute; reflexivity|]. split; reflexivity.
Qed.

Lemma slack_windows_witness :
  exists sig,
    Signature.fromHeader (Date.Instant 0) (Example.slackHeader 1000000059)
      (Some (Date.Instant Example.baseTime)) = Ok sig
    /\ exists x y, Date.valueOf (Date.Instant 1000000059000) = Some x
                   /\ Date.valueOf (Signature.observedAt sig) = Some y
                   /\ (x - y < Signature.CREATED_SLACK)%Z.
Proof.
  destruct (proj1 (proj2 (proj2 (proj2 (proj2 (proj2 (proj2 slack_windows)))))) (Date.Instant 0))
    as (sig & Hsig & Hc & Hv).
  exists sig. split; [exact Hsig|].
  apply (proj1 (proj2 (proj2 slack_windows)) sig _ Hc). exact Hv.
Defined.

(* ================================================================== *)
(** * SignatureKey: signing and verification *)
(* ================================================================== *)

Lemma signatureAlgorithmEqb_eq (a b : SignatureAlgorithm) :
  Enum.signatureAlgorithmEqb a b = true <-> a = b.
Proof. destruct a, b; split; intros H; try reflexivity; discriminate H. Qed.

Lemma hmac_sign_eval (hmac : HmacSignatureKey.HmacFactory) (buf : Buffer.t)
    (tr : list Effect.Event) :
  HmacSignatureKey.sign hmac buf tr = (Ok (hmac buf), tr ++ [Effect.MacComputed buf]).
Proof. reflexivity. Qed.

Lemma hmac_verify_eval (hmac : HmacSignatureKey.HmacFactory) (buf mac : Buffer.t)
    (tr : list Effect.Event) :
  HmacSignatureKey.verify hmac buf mac tr
  = (if (List.length (hmac buf) =? List.length mac)%nat
     then Ok (Buffer.eqb (hmac buf) mac)
     else Err (VerificationError "signature length mismatch"),
     tr ++ [Effect.MacComputed buf]).
Proof.
  unfold HmacSignatureKey.verify, mbind, M_bind, Effect.bind, Effect.catch, Effect.lift.
  rewrite hmac_sign_eval. unfold Buffer.timingSafeEqual.
  by destruct (_ =? _)%nat.
Qed.

(** What [#verifyMessage] does once the signature is extracted, its
    algorithm agrees and the canonical string is rebuilt. *)
Lemma verifyMessage_eval (now : Date.t) (key : SignatureKey.t) (ctx : MessageContext.t)
    (headerSpec : JsVal) (tr : list Effect.Event) (refSig : Signature.t) (payload : string) :
  MessageContext.getSignature now ctx None = Ok (Some refSig) ->
  match Signature.signatureAlgorithm refSig with
  | Some declared => Enum.signatureAlgorithmEqb (SignatureKey.signatureAlgorithm key) declared
  | None => true
  end = true ->
  MessageContext.canonicalString ctx (Signature.headers refSig) = Ok payload ->
  SignatureKey.verifyMessage now key ctx headerSpec tr
  = match SignatureKey.verify key (Buffer.fromUtf8 payload) (Signature.signature refSig) tr with
    | (Err e, tr') => (Err e, tr')
    | (Ok false, tr') => (Err (VerificationError "signature verification failure"), tr')
    | (Ok true, tr') =>
        (match SignatureKey.headerList headerSpec Verify with
         | Err e => Err e
         | Ok required =>
             let missingHeaders :=
               List.filter (fun header => negb (Js.includes (Signature.headers refSig) header))
                           required in
             if (0 <? List.length missingHeaders)%nat
             then Err (VerificationError
                         ("signature missing required headers: "
                          +:+ Js.join ", " missingHeaders))
             else if negb (Signature.validCreation refSig)
             then Err (VerificationError "signature creation in future")
             else if negb (Signature.validExpires refSig)
             then Err (VerificationError "signature has expired")
             else Ok true
         end, tr')
    end.
Proof.
  intros Hsig Halg Hpayload.
  unfold SignatureKey.verifyMessage, mbind, M_bind, Effect.bind, Effect.lift, Effect.throw.
  rewrite Hsig.
  replace (match Signature.signatureAlgorithm refSig with
           | Some declared =>
               negb (Enum.signatureAlgorithmEqb (SignatureKey.signatureAlgorithm key) declared)
           | None => false
           end) with false.
  2:{ destruct (Signature.signatureAlgorithm refSig); [by rewrite Halg|done]. }
  rewrite Hpayload.
  destruct (SignatureKey.verify key _ _ tr) as [[[|]|e] tr']; simpl; try reflexivity.
  destruct (SignatureKey.headerList headerSpec Verify) as [required|e]; [|reflexivity].
  cbv zeta. destruct (0 <? _)%nat; [reflexivity|].
  destruct (Signature.validCreation refSig); [|reflexivity].
  destruct (Signature.validExpires refSig); reflexivity.
Qed.

Lemma verifyMessage_scheme_mismatch (now : Date.t) (key : SignatureKey.t)
    (ctx : MessageContext.t) (headerSpec : JsVal) (tr : list Effect.Event)
    (refSig : Signature.t) (declared : SignatureAlgorithm) :
  MessageContext.getSignature now ctx None = Ok (Some refSig) ->
  Signature.signatureAlgorithm refSig = Some declared ->
  declared <> SignatureKey.signatureAlgorithm key ->
  SignatureKey.verifyMessage now key ctx headerSpec tr
  = (Err (VerificationError
            ("incorrect signature scheme used for key '" +:+ SignatureKey.id key +:+ "'")),
     tr).
Proof.
  intros Hsig Hdecl Hne.
  unfold SignatureKey.verifyMessage, mbind, M_bind, Effect.bind, Effect.lift, Effect.throw.
  rewrite Hsig, Hdecl.
  destruct (Enum.signatureAlgorithmEqb _ declared) eqn:E; [|reflexivity].
  apply signatureAlgorithmEqb_eq in E. congruence.
Qed.

(** C3. When the extracted signature declares an algorithm other than
    the key's scheme, [verifyRequest] and [verifyResponse] raise a
    VerificationError and the events are those before the call: no MAC
    has been computed. When the signature declares no algorithm and the
    canonical string over its header list is [payload], the [verify]
    method is the next step, run on the bytes of [payload]; for an HMAC
    key the call computes exactly that one MAC. *)
Theorem algorithm_agreement_before_mac :
  forall (now : Date.t) (key : SignatureKey.t) (ctx : MessageContext.t)
         (refSig : Signature.t),
    MessageContext.getSignature now ctx None = Ok (Some refSig) ->
    (forall declared,
        Signature.signatureAlgorithm refSig = Some declared ->
        declared <> SignatureKey.signatureAlgorithm key ->
        forall tr,
          let failure :=
            Err (VerificationError
                   ("incorrect signature scheme used for key '"
                    +:+ SignatureKey.id key +:+ "'")) in
          SignatureKey.verifyRequest now key ctx tr = (failure, tr)
          /\ SignatureKey.verifyResponse now key ctx tr = (failure, tr))
    /\ (forall payload,
          Signature.signatureAlgorithm refSig = None ->
          MessageContext.canonicalString ctx (Signature.headers refSig) = Ok payload ->
          forall headerSpec tr,
            (exists rest,
                SignatureKey.verifyMessage now key ctx headerSpec tr
                = Effect.bind
                    (SignatureKey.verify key (Buffer.fromUtf8 payload)
                                         (Signature.signature refSig)) rest tr)
            /\ (forall hmac,
                  SignatureKey.verify key = HmacSignatureKey.verify hmac ->
                  snd (SignatureKey.verifyMessage now key ctx headerSpec tr)
                  = tr ++ [Effect.MacComputed (Buffer.fromUtf8 payload)])).
Proof.
  intros now key ctx refSig Hsig. split.
  - intros declared Hdecl Hne tr failure.
    unfold SignatureKey.verifyRequest, SignatureKey.verifyResponse.
    split; by eapply verifyMessage_scheme_mismatch.
  - intros payload Hnone Hpayload headerSpec tr. split.
    + eexists.
      unfold SignatureKey.verifyMessage, mbind, M_bind, Effect.bind at 1, Effect.lift.
      rewrite Hsig, Hnone. unfold Effect.bind at 1. rewrite Hpayload. reflexivity.
    + intros hmac Hverify.
      rewrite (verifyMessage_eval now key ctx headerSpec tr refSig payload Hsig);
        [|by rewrite Hnone|done].
      rewrite Hverify, hmac_verify_eval.
      destruct (_ =? _)%nat; [|reflexivity]. by destruct (Buffer.eqb _ _).
Qed.

Lemma algorithm_agreement_before_mac_witness :
  SignatureKey.verifyRequest Example.now Example.defaultKey
    (Example.postRequest (Some Example.rsaSignature)) []
  = (Err (VerificationError "incorrect signature scheme used for key 'test'"), [])
  /\ snd (SignatureKey.verifyRequest Example.now Example.defaultKey
            (Example.postRequest (Some Example.bareSignature)) [])
     = [Effect.MacComputed (Buffer.fromUtf8 "host: foobar.com")].
Proof.
  split.
  - assert (H : exists refSig,
               MessageContext.getSignature Example.now
                 (Example.postRequest (Some Example.rsaSignature)) None = Ok (Some refSig)
               /\ Signature.signatureAlgorithm refSig = Some RSA_SHA256).
    { eexists. split; [vm_compute; reflexivity|reflexivity]. }
    destruct H as (refSig & Hsig & Halg).
    assert (Hne : RSA_SHA256 <> SignatureKey.signatureAlgorithm Example.defaultKey)
      by discriminate.
    pose proof (proj1 (proj1 (algorithm_agreement_before_mac _ Example.defaultKey _ _ Hsig)
                         RSA_SHA256 Halg Hne [])) as H.
    exact H.
  - assert (H : exists refSig,
               MessageContext.getSignature Example.now
                 (Example.postRequest (Some Example.bareSignature)) None = Ok (Some refSig)
               /\ Signature.signatureAlgorithm refSig = None
               /\ Signature.headers refSig = ["host"]).
    { eexists. split; [vm_compute; reflexivity|]. split; reflexivity. }
    destruct H as (refSig & Hsig & Halg & Hheaders).
    assert (Hpayload : MessageContext.canonicalString
                         (Example.postRequest (Some Example.bareSignature))
                         (Signature.headers refSig) = Ok "host: foobar.com")
      by (rewrite Hheaders; vm_compute; reflexivity).
    pose proof (proj2 (proj2 (algorithm_agreement_before_mac
                                Example.now Example.defaultKey _ _ Hsig)
                         _ Halg Hpayload
                         (Obj.get (SignatureKey.options Example.defaultKey) "requestHeaders")
                         [])) as H.
    specialize (H (Crypto.hmac HMAC_SHA256_ALG Example.secretBytes)).
    assert (E : SignatureKey.verify Example.defaultKey
                = HmacSignatureKey.verify (Crypto.hmac HMAC_SHA256_ALG Example.secretBytes))
      by reflexivity.
    specialize (H E). exact H.
Defined.

Lemma includes_In (l : list string) (s : string) : Js.includes l s = true <-> In s l.
Proof.
  unfold Js.includes. rewrite existsb_exists. split.
  - intros (x & Hin & Hx). apply String.eqb_eq in Hx. by subst.
  - intros Hin. exists s. split; [done|]. apply String.eqb_refl.
Qed.

Lemma signMessage_eval (key : SignatureKey.t) (ctx : MessageContext.t) (headerSpec : JsVal)
    (tr : list Effect.Event) (listed : list string) (payload : string) :
  SignatureKey.headerList headerSpec Sign = Ok listed ->
  MessageContext.canonicalString ctx (signedHeaders key listed) = Ok payload ->
  SignatureKey.signMessage key ctx headerSpec tr
  = match SignatureKey.sign key (Buffer.fromUtf8 payload) tr with
    | (Ok mac, tr') =>
        (Ok (SignatureKey.format (SignatureKey.id key)
               (Enum.signatureAlgorithm (SignatureKey.signatureAlgorithm key))
               (signedHeaders key listed) (Buffer.toBase64 mac)), tr')
    | (Err e, tr') => (Err e, tr')
    end.
Proof.
  intros Hlist Hpayload.
  unfold SignatureKey.signMessage, mbind, M_bind, Effect.bind, Effect.lift.
  rewrite Hlist. fold (signedHeaders key listed). rewrite Hpayload.
  by destruct (SignatureKey.sign key _ tr) as [[mac|e] tr'].
Qed.





(* ================================================================== *)
(** * Comparing MACs and digests *)
(* ================================================================== *)

(** C2, on the code. [HmacSignatureKey.verify] turns the RangeError of
    [timingSafeEqual] into a VerificationError, as the claim says.
    [verifyDigestHeader] does not: on a digest header whose decoded
    length differs from the length of the recomputed digest the
    RangeError escapes. *)
Theorem comparator_length_mismatch :
  (forall (hmac : HmacSignatureKey.HmacFactory) (buf mac : Buffer.t)
          (tr : list Effect.Event),
      List.length mac <> List.length (hmac buf) ->
      HmacSignatureKey.verify hmac buf mac tr
      = (Err (VerificationError "signature length mismatch"),
         tr ++ [Effect.MacComputed buf]))
  /\ (forall (key : SignatureKey.t) (body : Buffer.t) (digest cmpAlg encoded : string)
             (rest : list string),
        Js.split "=" digest = cmpAlg :: encoded :: rest ->
        Js.toLowerCase cmpAlg
        = Js.toLowerCase (Enum.digestAlgorithm (SignatureKey.digestAlgorithm key)) ->
        List.length (Buffer.fromBase64 encoded)
        <> List.length (SignatureKey.digestBuffer key body) ->
        SignatureKey.verifyDigestHeader key body digest
        = Err (RangeError "Input buffers must have the same byte length")).
Proof.
  split.
  - intros hmac buf mac tr Hlen. rewrite hmac_verify_eval.
    destruct (Nat.eqb_spec (List.length (hmac buf)) (List.length mac)); [congruence|done].
  - intros key body digest cmpAlg encoded rest Hsplit Halg Hlen.
    unfold SignatureKey.verifyDigestHeader, Js.splitLimit. rewrite Hsplit.
    cbn [firstn hd nth_error]. rewrite Halg, String.eqb_refl. cbn [negb].
    unfold Buffer.timingSafeEqual.
    destruct (Nat.eqb_spec (List.length (Buffer.fromBase64 encoded))
                           (List.length (SignatureKey.digestBuffer key body)));
      [congruence|done].
Qed.

Lemma comparator_length_mismatch_witness :
  HmacSignatureKey.verify (Crypto.hmac HMAC_SHA256_ALG Example.secretBytes)
    (Buffer.fromUtf8 "host: foobar.com") [x00] []
  = (Err (VerificationError "signature length mismatch"),
     [Effect.MacComputed (Buffer.fromUtf8 "host: foobar.com")])
  /\ SignatureKey.verifyDigestHeader Example.defaultKey Example.jsonBody "SHA-256=AAAA"
     = Err (RangeError "Input buffers must have the same byte length").
Proof.
  split.
  - apply (proj1 comparator_length_mismatch
             (Crypto.hmac HMAC_SHA256_ALG Example.secretBytes)
             (Buffer.fromUtf8 "host: foobar.com") [x00] []).
    vm_compute. discriminate.
  - apply (proj2 comparator_length_mismatch Example.defaultKey Example.jsonBody
             "SHA-256=AAAA" "SHA-256" "AAAA" []).
    + reflexivity.
    + reflexivity.
    + vm_compute. discriminate.
Defined.

(* ================================================================== *)
(** * SignatureKeyManager: option merging *)
(* ================================================================== *)

Lemma hasKey_set_other (obj : Obj.t) (k0 k : string) (v : JsVal) :
  k <> k0 -> Obj.hasKey (Obj.set obj k0 v) k = Obj.hasKey obj k.
Proof.
  intros Hne. unfold Obj.hasKey. induction obj as [|[k1 v1] obj IH]; simpl.
  - destruct (String.eqb_spec k0 k); [congruence|done].
  - destruct (String.eqb_spec k1 k0) as [->|Hk]; simpl; [done|]. by rewrite IH.
Qed.

Lemma get_set_other (obj : Obj.t) (k0 k : string) (v : JsVal) :
  k <> k0 -> Obj.get (Obj.set obj k0 v) k = Obj.get obj k.
Proof.
  intros Hne. induction obj as [|[k1 v1] obj IH]; simpl.
  - destruct (String.eqb_spec k0 k); [congruence|done].
  - destruct (String.eqb_spec k1 k0) as [->|Hk]; simpl.
    + destruct (String.eqb_spec k0 k); [congruence|done].
    + by rewrite IH.
Qed.

(** C8, on the code. The manager hands the key configuration itself to
    [getKeySigningOptions], so the overrides a configuration carries in
    its [options] property are never read: setting that property changes
    nothing unless the base record has an option of that name. The key
    resolved for a configuration with [options.calculateDigest = false]
    under the default base has [calculateDigest = true]; and with a base
    whose [calculateDigest] is undefined the key is constructed with the
    option left undefined, without a ConfigurationError. *)
Theorem per_key_overrides_not_applied :
  (forall (mgr : SignatureKeyManager.t) (keyId : string) (keyConfig : Obj.t)
          (overrides : JsVal),
      Obj.hasKey (SignatureKeyManager.baseSigningOptions mgr) "options" = false ->
      SignatureKeyManager.getKeySigningOptions mgr keyId
        (Obj.set keyConfig "options" overrides)
      = SignatureKeyManager.getKeySigningOptions mgr keyId keyConfig)
  /\ (exists mgr,
        SignatureKeyManager.create Example.managerConfig (Some Example.lookupOverriding)
        = Ok mgr
        /\ Obj.get (SignatureKeyManager.baseSigningOptions mgr) "calculateDigest"
           = JBool true
        /\ Obj.get Example.overridingKeyConfig "options"
           = JObj [("calculateDigest", JBool false)]
        /\ SignatureKeyManager.tryGetKey mgr "test"
           = Ok (Some (Example.keyWith "test"
                         (Example.optionsWith
                            [("(request-target)", JBool true); ("host", JBool true)] [] true
                          ++ [("version", JStr "draft-cavage-http-signatures-12")]))))
  /\ (exists mgr,
        SignatureKeyManager.create Example.undefinedDigestConfig (Some Example.lookupPlain)
        = Ok mgr
        /\ Obj.get (SignatureKeyManager.baseSigningOptions mgr) "calculateDigest"
           = JUndefined
        /\ SignatureKeyManager.tryGetKey mgr "test"
           = Ok (Some (Example.keyWith "test"
                         [ ("signatureAlgorithm", JStr "hs2019");
                           ("requestHeaders",
                            JObj [("(request-target)", JBool true); ("host", JBool true)]);
                           ("responseHeaders", JObj []);
                           ("calculateDigest", JUndefined);
                           ("version", JStr "draft-cavage-http-signatures-12") ]))).
Proof.
  split; [|split].
  - intros mgr keyId keyConfig overrides Hbase.
    unfold SignatureKeyManager.getKeySigningOptions. f_equal.
    apply mapR_ext. apply List.Forall_forall. intros [k v] Hin. simpl.
    assert (Hk : k <> "options").
    { intros ->. unfold Obj.hasKey in Hbase.
      assert (existsb (fun p => String.eqb (fst p) "options")
                      (SignatureKeyManager.baseSigningOptions mgr) = true); [|congruence].
      apply existsb_exists. by exists ("options", v). }
    unfold SignatureKeyManager.hasKey.
    by rewrite hasKey_set_other, get_set_other.
  - eexists. split; [reflexivity|]. split; [reflexivity|]. split; reflexivity.
  - eexists. split; [reflexivity|]. split; reflexivity.
Qed.

Lemma per_key_overrides_not_applied_witness :
  SignatureKeyManager.getKeySigningOptions
    {| SignatureKeyManager.keyLookup := Example.lookupOverriding;
       SignatureKeyManager.baseSigningOptions := SignatureKeyManager.DEFAULT_OPTS |}
    "test"
    (Obj.set Example.plainKeyConfig "options" (JObj [("calculateDigest", JBool false)]))
  = SignatureKeyManager.getKeySigningOptions
      {| SignatureKeyManager.keyLookup := Example.lookupOverriding;
         SignatureKeyManager.baseSigningOptions := SignatureKeyManager.DEFAULT_OPTS |}
      "test" Example.plainKeyConfig.
Proof.
  apply (proj1 per_key_overrides_not_applied). reflexivity.
Defined.

(* ================================================================== *)
(** * Buffers: base64 round trip *)
(* ================================================================== *)

Lemma list_ind3 {A} (P : list A -> Prop) :
  P [] -> (forall a, P [a]) -> (forall a b, P [a; b]) ->
  (forall a b c rest, P rest -> P (a :: b :: c :: rest)) ->
  forall l, P l.
Proof.
  intros H0 H1 H2 H3.
  assert (H : forall l, P l /\ (forall a, P (a :: l)) /\ (forall a b, P (a :: b :: l))).
  { induction l as [|x l (IH0 & IH1 & IH2)]; [by auto|].
    split; [apply IH1|]. split; [intros a; apply IH2|]. intros a b. by apply H3. }
  intros l. apply H.
Qed.

Lemma sextet_lt (g i : N) : (Buffer.sextet g i < 64)%N.
Proof. unfold Buffer.sextet. apply N.mod_upper_bound. done. Qed.

Lemma below_64 (P : N -> bool) :
  forallb P (List.map N.of_nat (seq 0 64)) = true -> forall n, (n < 64)%N -> P n = true.
Proof.
  intros H n Hn. rewrite forallb_forall in H. apply H.
  apply in_map_iff. exists (N.to_nat n). split; [lia|]. apply in_seq. lia.
Qed.

Lemma unbase64_sextetChar (n : N) :
  (n < 64)%N -> Buffer.unbase64 (Buffer.sextetChar n) = Some n.
Proof.
  intros Hn.
  pose proof (below_64 (fun n => match Buffer.unbase64 (Buffer.sextetChar n) with
                                 | Some m => (m =? n)%N
                                 | None => false
                                 end)) as H.
  specialize (H ltac:(vm_compute; reflexivity) n Hn). cbv beta in H.
  destruct (Buffer.unbase64 (Buffer.sextetChar n)) as [m|]; [|done].
  apply N.eqb_eq in H. by subst.
Qed.

Lemma sextetChar_not (c : ascii) (n : N) :
  forallb (fun n => negb (Ascii.eqb (Buffer.sextetChar n) c)) (List.map N.of_nat (seq 0 64))
  = true ->
  (n < 64)%N -> Ascii.eqb (Buffer.sextetChar n) c = false.
Proof.
  intros H Hn. apply negb_true_iff.
  exact (below_64 (fun n => negb (Ascii.eqb (Buffer.sextetChar n) c)) H n Hn).
Qed.

Lemma sextets_cons (n : N) (s : string) :
  (n < 64)%N ->
  Buffer.sextets (String (Buffer.sextetChar n) s) = n :: Buffer.sextets s.
Proof.
  intros Hn. simpl.
  rewrite (sextetChar_not "=" n) by (vm_compute; reflexivity || done).
  by rewrite unbase64_sextetChar.
Qed.

Lemma byteOfN_to_N (b : byte) : Buffer.byteOfN (Byte.to_N b) = b.
Proof.
  unfold Buffer.byteOfN. pose proof (Byte.to_N_bounded b).
  rewrite N.mod_small by lia. by rewrite Byte.of_to_N.
Qed.

Lemma byteOfN_mod (n : N) (b : byte) :
  (n mod 256 = Byte.to_N b)%N -> Buffer.byteOfN n = b.
Proof.
  intros H. unfold Buffer.byteOfN. rewrite H. by rewrite Byte.of_to_N.
Qed.

Lemma sextet_unfold (g : N) :
  Buffer.sextet g 0 = ((g / 262144) mod 64)%N
  /\ Buffer.sextet g 1 = ((g / 4096) mod 64)%N
  /\ Buffer.sextet g 2 = ((g / 64) mod 64)%N
  /\ Buffer.sextet g 3 = (g mod 64)%N.
Proof.
  unfold Buffer.sextet. repeat split; try reflexivity.
  change (64 ^ (3 - 3))%N with 1%N. by rewrite N.div_1_r.
Qed.

Lemma decode_three (a b c : N) :
  (a < 256 -> b < 256 -> c < 256 ->
   let g := a * 65536 + b * 256 + c in
   let g' := (((g / 262144) mod 64 * 64 + (g / 4096) mod 64) * 64 + (g / 64) mod 64) * 64
             + g mod 64 in
   (g' / 65536) mod 256 = a /\ (g' / 256) mod 256 = b /\ g' mod 256 = c)%N.
Proof. intros Ha Hb Hc g g'. subst g g'. n2z. Qed.

Lemma decode_two (a b : N) :
  (a < 256 -> b < 256 ->
   let g := a * 65536 + b * 256 + 0 in
   let g' := (((g / 262144) mod 64 * 64 + (g / 4096) mod 64) * 64 + (g / 64) mod 64) * 64 in
   (g' / 65536) mod 256 = a /\ (g' / 256) mod 256 = b)%N.
Proof. intros Ha Hb g g'. subst g g'. n2z. Qed.

Lemma decode_one (a : N) :
  (a < 256 ->
   let g := a * 65536 + 0 * 256 + 0 in
   let g' := ((g / 262144) mod 64 * 64 + (g / 4096) mod 64) * 4096 in
   (g' / 65536) mod 256 = a)%N.
Proof. intros Ha g g'. subst g g'. n2z. Qed.

Lemma fromBase64_toBase64 (bs : Buffer.t) : Buffer.fromBase64 (Buffer.toBase64 bs) = bs.
Proof.
  unfold Buffer.fromBase64. induction bs as [|a|a b|a b c rest IH] using list_ind3.
  - reflexivity.
  - cbn [Buffer.toBase64]. rewrite !sextets_cons by apply sextet_lt.
    change (Buffer.sextets "==") with (@nil N). cbn [Buffer.bytesOfSextets].
    destruct (sextet_unfold (Buffer.group a x00 x00)) as (-> & -> & _).
    pose proof (Byte.to_N_bounded a).
    f_equal. apply byteOfN_mod. unfold Buffer.group.
    change (Byte.to_N x00) with 0%N. apply decode_one. lia.
  - cbn [Buffer.toBase64]. rewrite !sextets_cons by apply sextet_lt.
    change (Buffer.sextets "=") with (@nil N). cbn [Buffer.bytesOfSextets].
    destruct (sextet_unfold (Buffer.group a b x00)) as (-> & -> & -> & _).
    pose proof (Byte.to_N_bounded a). pose proof (Byte.to_N_bounded b).
    unfold Buffer.group. change (Byte.to_N x00) with 0%N.
    destruct (decode_two (Byte.to_N a) (Byte.to_N b)) as (Ha & Hb); [lia|lia|].
    f_equal; [by apply byteOfN_mod|]. f_equal. by apply byteOfN_mod.
  - cbn [Buffer.toBase64]. rewrite !sextets_cons by apply sextet_lt.
    cbn [Buffer.bytesOfSextets]. rewrite IH.
    destruct (sextet_unfold (Buffer.group a b c)) as (-> & -> & -> & ->).
    pose proof (Byte.to_N_bounded a). pose proof (Byte.to_N_bounded b).
    pose proof (Byte.to_N_bounded c). unfold Buffer.group.
    destruct (decode_three (Byte.to_N a) (Byte.to_N b) (Byte.to_N c)) as (Ha & Hb & Hc);
      [lia|lia|lia|].
    f_equal; [by apply byteOfN_mod|]. f_equal; [by apply byteOfN_mod|].
    f_equal. by apply byteOfN_mod.
Qed.

Lemma removeAll_sextetChar (n : N) (s : string) :
  (n < 64)%N ->
  Js.removeAll "=" (String (Buffer.sextetChar n) s)
  = String (Buffer.sextetChar n) (Js.removeAll "=" s).
Proof.
  intros Hn. simpl. by rewrite (sextetChar_not "=" n) by (vm_compute; reflexivity || done).
Qed.

Lemma unpadded_length (bs : Buffer.t) :
  String.length (Js.removeAll "=" (Buffer.toBase64 bs)) = ((4 * List.length bs + 2) / 3)%nat.
Proof.
  induction bs as [|a|a b|a b c rest IH] using list_ind3.
  - reflexivity.
  - cbn [Buffer.toBase64]. rewrite !removeAll_sextetChar by apply sextet_lt. reflexivity.
  - cbn [Buffer.toBase64]. rewrite !removeAll_sextetChar by apply sextet_lt. reflexivity.
  - cbn [Buffer.toBase64]. rewrite !removeAll_sextetChar by apply sextet_lt.
    cbn [String.length List.length]. rewrite IH.
    replace (4 * S (S (S (List.length rest))) + 2)%nat
      with ((4 * List.length rest + 2) + 4 * 3)%nat by lia.
    rewrite Nat.div_add by lia. lia.
Qed.

Lemma unpadded_check (bs : Buffer.t) :
  (Js.len (Js.removeAll "=" (Buffer.toBase64 bs)) * 3 / 4 = Z.of_nat (List.length bs))%Z.
Proof.
  unfold Js.len. rewrite unpadded_length.
  rewrite Nat2Z.inj_div, Nat2Z.inj_add, Nat2Z.inj_mul. cbn [Z.of_nat Pos.of_succ_nat Pos.succ].
  lia.
Qed.

Lemma toBase64_no_comma (bs : Buffer.t) : occurs "," (Buffer.toBase64 bs) = false.
Proof.
  assert (Hc : forall n, (n < 64)%N -> Ascii.eqb "," (Buffer.sextetChar n) = false).
  { intros n Hn. rewrite Ascii.eqb_sym. apply sextetChar_not; [vm_compute; reflexivity|done]. }
  unfold occurs.
  induction bs as [|a|a b|a b c rest IH] using list_ind3; cbn [Buffer.toBase64];
    rewrite ?anyChar_cons, ?Hc by apply sextet_lt; try reflexivity.
  exact IH.
Qed.

(* ================================================================== *)
(** * Signing, then verifying *)
(* ================================================================== *)

Lemma bigEndian_length (n : nat) (x : N) : List.length (Sha2.bigEndian n x) = n.
Proof. induction n as [|n IH]; [done|]. simpl. by rewrite IH. Qed.

Lemma output_length (p : Sha2.params) (st : Sha2.state) :
  List.length (Sha2.output p st) = (8 * Sha2.wordBytes p)%nat.
Proof.
  destruct st as [[[[[[[a b] c] d] e] f] g] h]. unfold Sha2.output.
  cbn [List.map List.concat]. rewrite !length_app, !bigEndian_length. simpl. lia.
Qed.

Lemma hash_length (alg : DigestAlgorithm) (buf : Buffer.t) :
  List.length (Crypto.hash alg buf) = (Crypto.blockSize alg / 2)%nat.
Proof.
  destruct alg; unfold Crypto.hash, Sha2.hashWith; rewrite output_length; reflexivity.
Qed.

Lemma hmac_length (alg : HmacAlgorithm) (key buf : Buffer.t) :
  List.length (Crypto.hmac alg key buf) = (Crypto.blockSize (Crypto.hmacHash alg) / 2)%nat.
Proof. unfold Crypto.hmac. apply hash_length. Qed.

Lemma hmac_nonempty (alg : HmacAlgorithm) (key buf : Buffer.t) :
  (List.length (Crypto.hmac alg key buf) =? 0)%nat = false.
Proof. rewrite hmac_length. by destruct alg. Qed.

Lemma byte_eqb_refl (b : byte) : Byte.eqb b b = true.
Proof. by destruct b. Qed.

Lemma buffer_eqb_refl (bs : Buffer.t) : Buffer.eqb bs bs = true.
Proof. induction bs as [|b bs IH]; [done|]. simpl. by rewrite byte_eqb_refl, IH. Qed.

(** ** Joining and splitting back *)

Lemma occurs_app (c : ascii) (a b : string) :
  occurs c (a +:+ b) = occurs c a || occurs c b.
Proof. apply anyChar_app. Qed.

Lemma ws_no_space (h : string) :
  anyChar Js.isWhiteSpace h = false -> occurs " " h = false.
Proof.
  unfold occurs. induction h as [|c h IH]; [done|]. rewrite !anyChar_cons.
  intros [Hc Hh]%orb_false_iff. rewrite (IH Hh), orb_false_r.
  destruct (Ascii.eqb_spec " " c) as [<-|]; [discriminate Hc|done].
Qed.

Lemma split_join (c : ascii) (hs : list string) :
  hs <> [] -> Forall (fun h => occurs c h = false) hs ->
  Js.split c (Js.join (String c EmptyString) hs) = hs.
Proof.
  induction hs as [|h hs IH]; [done|]. intros _ Hall.
  inversion Hall as [|? ? Hh Hhs]; subst.
  destruct hs as [|h' hs].
  - simpl. by apply split_none.
  - rewrite join_cons by done.
    change (h +:+ String c EmptyString +:+ Js.join (String c EmptyString) (h' :: hs))
      with (h +:+ String c (Js.join (String c EmptyString) (h' :: hs))).
    rewrite split_app_sep, split_none by done. rewrite IH by done. done.
Qed.

Lemma occurs_join (c : ascii) (sep : string) (hs : list string) :
  occurs c sep = false -> Forall (fun h => occurs c h = false) hs ->
  occurs c (Js.join sep hs) = false.
Proof.
  intros Hsep. induction 1 as [|h hs Hh Hall IH]; [done|].
  destruct hs as [|h' hs]; [done|].
  rewrite join_cons by done. rewrite !occurs_app, Hh, Hsep, IH. done.
Qed.

Lemma occurs_quoted (c : ascii) (s : string) :
  Ascii.eqb c Js.DQUOTE = false -> occurs c s = false -> occurs c (Js.quoted s) = false.
Proof.
  intros Hc Hs. unfold Js.quoted, occurs. rewrite anyChar_cons, anyChar_app.
  fold (occurs c s). rewrite Hs, Hc. simpl. by rewrite Hc.
Qed.

Lemma isEmpty_quoted (s : string) : Js.isEmpty (Js.quoted s) = false.
Proof. reflexivity. Qed.

(** ** The formatted parameter string parses back *)

Lemma addPair_fresh (out : gmap string string) (name value : string) :
  occurs "=" name = false -> Js.isEmpty name = false ->
  anyChar Js.isWhiteSpace name = false -> Js.isEmpty value = false ->
  out !! name = None ->
  Signature.addPair out (name +:+ "=" +:+ value) = Ok (<[name := value]> out).
Proof.
  intros Heq Hname Hws Hvalue Hfresh. unfold Signature.addPair.
  fold (pairKey (name +:+ "=" +:+ value)). fold (pairValue (name +:+ "=" +:+ value)).
  rewrite pairKey_eq, pairValue_eq by done.
  unfold Js.indexOf. change (name +:+ "=" +:+ value) with (name +:+ String "=" value).
  rewrite search_app by done.
  pose proof (len_nonneg name). destruct (Js.len name <? 0)%Z eqn:E; [lia|].
  rewrite Hname, Hvalue, (search_none _ _ Hws). simpl.
  rewrite Hfresh. case_bool_decide as Hsome; [by destruct Hsome|done].
Qed.

Lemma format_split (keyId algorithm : string) (headers : list string) (sig : string) :
  occurs "," keyId = false -> occurs "," algorithm = false ->
  Forall (fun h => occurs "," h = false) headers -> occurs "," sig = false ->
  Js.split "," (SignatureKey.format keyId algorithm headers sig)
  = [ "keyId" +:+ "=" +:+ Js.quoted keyId;
      "algorithm" +:+ "=" +:+ Js.quoted algorithm;
      "headers" +:+ "=" +:+ Js.quoted (Js.join " " headers);
      "signature" +:+ "=" +:+ Js.quoted sig ].
Proof.
  intros Hk Ha Hh Hs. unfold SignatureKey.format.
  replace ("keyId=" +:+ Js.quoted keyId +:+ ",algorithm=" +:+ Js.quoted algorithm
           +:+ ",headers=" +:+ Js.quoted (Js.join " " headers)
           +:+ ",signature=" +:+ Js.quoted sig)
    with (("keyId" +:+ "=" +:+ Js.quoted keyId)
          +:+ String "," (("algorithm" +:+ "=" +:+ Js.quoted algorithm)
          +:+ String "," (("headers" +:+ "=" +:+ Js.quoted (Js.join " " headers))
          +:+ String "," ("signature" +:+ "=" +:+ Js.quoted sig)))).
  2:{ rewrite !app_assoc_str. reflexivity. }
  rewrite !split_app_sep.
  rewrite !split_none; [reflexivity| | | |].
  all: rewrite !occurs_app; apply orb_false_iff; split; [reflexivity|].
  all: apply orb_false_iff; split; [reflexivity|]; apply occurs_quoted; try reflexivity.
  all: try done.
  apply occurs_join; done.
Qed.

Lemma pairsToMap_format (keyId algorithm : string) (headers : list string) (sig : string) :
  Signature.pairsToMap
    [ "keyId" +:+ "=" +:+ Js.quoted keyId;
      "algorithm" +:+ "=" +:+ Js.quoted algorithm;
      "headers" +:+ "=" +:+ Js.quoted (Js.join " " headers);
      "signature" +:+ "=" +:+ Js.quoted sig ]
  = Ok (parsedFields keyId algorithm headers sig).
Proof.
  unfold Signature.pairsToMap, parsedFields. cbn [Signature.forEachPair].
  rewrite addPair_fresh by done. cbn [mbind Result_bind].
  rewrite addPair_fresh by done. cbn [mbind Result_bind].
  rewrite addPair_fresh by done. cbn [mbind Result_bind].
  rewrite addPair_fresh by done. reflexivity.
Qed.

Lemma parsedFields_lookup (keyId algorithm : string) (headers : list string) (sig : string) :
  let fm := parsedFields keyId algorithm headers sig in
  fm !! "keyId" = Some (Js.quoted keyId)
  /\ fm !! "algorithm" = Some (Js.quoted algorithm)
  /\ fm !! "headers" = Some (Js.quoted (Js.join " " headers))
  /\ fm !! "signature" = Some (Js.quoted sig)
  /\ fm !! "created" = None
  /\ fm !! "expires" = None.
Proof. unfold parsedFields. repeat split; by simplify_map_eq. Qed.

Lemma find_signatureAlgorithm (sa : SignatureAlgorithm) :
  List.find (fun a => String.eqb (Enum.signatureAlgorithm a) (Enum.signatureAlgorithm sa))
            Enum.signatureAlgorithms = Some sa.
Proof. by destruct sa. Qed.

Lemma headers_accepted (hs : list string) :
  Forall wireSafe hs ->
  existsb (fun s => Js.isEmpty s || negb (Js.search Js.isWhiteSpace s =? -1)%Z)
          (List.map Js.toLowerCase hs) = false.
Proof.
  induction 1 as [|h hs (He & Hws & _) _ IH]; [done|]. simpl.
  rewrite isEmpty_lower, He, IH, (search_none Js.isWhiteSpace). 1: done.
  by rewrite anyChar_ws_lower.
Qed.

(** The string [#signMessage] formats parses back into the record of
    its parts. *)
Lemma fromHeader_format (now : Date.t) (keyId : string) (sa : SignatureAlgorithm)
    (headers : list string) (mac : Buffer.t) :
  occurs "," keyId = false -> headers <> [] -> Forall wireSafe headers -> mac <> [] ->
  Signature.fromHeader now
    (SignatureKey.format keyId (Enum.signatureAlgorithm sa) headers (Buffer.toBase64 mac))
    None
  = Ok {| Signature.keyId := keyId;
          Signature.signature := mac;
          Signature.headers := List.map Js.toLowerCase headers;
          Signature.signatureAlgorithm := Some sa;
          Signature.created := None;
          Signature.expires := None;
          Signature.observedAt := now |}.
Proof.
  intros Hk Hne Hsafe Hmac. unfold Signature.fromHeader.
  rewrite format_split; [|done|by destruct sa| |apply toBase64_no_comma].
  2:{ eapply List.Forall_impl; [|exact Hsafe]. by intros h (_ & _ & ?). }
  rewrite pairsToMap_format. cbn [mbind Result_bind].
  destruct (parsedFields_lookup keyId (Enum.signatureAlgorithm sa) headers
              (Buffer.toBase64 mac)) as (Lk & La & Lh & Ls & Lc & Le).
  cbv zeta in Lk, La, Lh, Ls, Lc, Le.
  assert (E1 : Signature.getKeyId (parsedFields keyId (Enum.signatureAlgorithm sa) headers
                                     (Buffer.toBase64 mac)) = Ok keyId).
  { unfold Signature.getKeyId. rewrite Lk. cbn [Js.truthy default from_option id].
    rewrite isEmpty_quoted. cbn [negb]. apply parseStringField_quoted. }
  assert (E2 : Signature.getSignature (parsedFields keyId (Enum.signatureAlgorithm sa) headers
                                         (Buffer.toBase64 mac)) = Ok mac).
  { unfold Signature.getSignature. rewrite Ls. cbn [Js.truthy default from_option id].
    rewrite isEmpty_quoted. cbn [negb]. rewrite parseStringField_quoted.
    cbn [mbind Result_bind]. rewrite fromBase64_toBase64, unpadded_check, Z.eqb_refl.
    cbn [negb orb]. destruct mac; [done|reflexivity]. }
  assert (E3 : Signature.getHeaders (parsedFields keyId (Enum.signatureAlgorithm sa) headers
                                       (Buffer.toBase64 mac))
               = Ok (List.map Js.toLowerCase headers)).
  { unfold Signature.getHeaders. rewrite Lh. cbn [Js.truthy default from_option id].
    rewrite isEmpty_quoted. cbn [negb]. rewrite parseStringField_quoted.
    cbn [mbind Result_bind].
    change " "%string with (String " " EmptyString). rewrite split_join; [|done|].
    2:{ eapply List.Forall_impl; [|exact Hsafe]. intros h (_ & ? & _). by apply ws_no_space. }
    by rewrite headers_accepted. }
  assert (E4 : Signature.getSignatureAlgorithm
                 (parsedFields keyId (Enum.signatureAlgorithm sa) headers
                    (Buffer.toBase64 mac)) = Ok (Some sa)).
  { unfold Signature.getSignatureAlgorithm. rewrite La.
    cbn [Js.truthy default from_option id].
    rewrite isEmpty_quoted. cbn [negb]. rewrite parseStringField_quoted.
    cbn [mbind Result_bind]. by rewrite find_signatureAlgorithm. }
  assert (E5 : Signature.getCreated (parsedFields keyId (Enum.signatureAlgorithm sa) headers
                                       (Buffer.toBase64 mac)) = Ok None).
  { unfold Signature.getCreated. by rewrite Lc. }
  assert (E6 : Signature.getExpires (parsedFields keyId (Enum.signatureAlgorithm sa) headers
                                       (Buffer.toBase64 mac)) = Ok None).
  { unfold Signature.getExpires. by rewrite Le. }
  rewrite E1. cbn [mbind Result_bind]. rewrite E2. cbn [mbind Result_bind].
  rewrite E3. cbn [mbind Result_bind]. rewrite E4. cbn [mbind Result_bind].
  rewrite E5. cbn [mbind Result_bind]. rewrite E6. reflexivity.
Qed.

Lemma filter_none {A} (p : A -> bool) (l : list A) :
  Forall (fun a => p a = false) l -> List.filter p l = [].
Proof. induction 1 as [|a l Ha _ IH]; [done|]. simpl. by rewrite Ha. Qed.

Lemma getSignature_carried (now : Date.t) (signed verified : MessageContext.t) (s : string) :
  carriesSignature signed verified s ->
  MessageContext.getSignature now verified None
  = (sig ← Signature.fromHeader now s None; Ok (Some sig)).
Proof.
  intros (_ & _ & Hsig & Hother & Hauth). unfold MessageContext.getSignature.
  assert (E1 : MessageContext.getHeader verified "signature" = Ok (Some [s])).
  { unfold MessageContext.getHeader.
    change (Js.toLowerCase "signature") with "signature". cbn. by rewrite Hsig. }
  assert (E2 : MessageContext.getHeader verified "authorization"
               = Ok (HttpMessage.getHeader (MessageContext.message signed) "authorization")).
  { unfold MessageContext.getHeader.
    change (Js.toLowerCase "authorization") with "authorization". cbn.
    by rewrite Hother. }
  rewrite E1. cbn [mbind Result_bind]. rewrite E2. cbn [mbind Result_bind].
  destruct (HttpMessage.getHeader (MessageContext.message signed) "authorization")
    as [values|] eqn:Ha; cbn [option_map default from_option id].
  - rewrite (filter_none _ values).
    + reflexivity.
    + specialize (Hauth values eq_refl).
      eapply List.Forall_impl; [|exact Hauth]. done.
  - reflexivity.
Qed.

Lemma getHeader_carried (signed verified : MessageContext.t) (s h : string) :
  carriesSignature signed verified s -> Js.toLowerCase h <> "signature" ->
  MessageContext.getHeader verified h = MessageContext.getHeader signed h.
Proof.
  intros (Hopts & Htarget & _ & Hother & _) Hne.
  unfold MessageContext.getHeader, MessageContext.getRequestTarget.
  rewrite Hopts, Htarget, (Hother _ Hne). reflexivity.
Qed.

Lemma canonicalString_carried (signed verified : MessageContext.t) (s : string)
    (hs : list string) :
  carriesSignature signed verified s ->
  ~ In "signature" (List.map Js.toLowerCase hs) ->
  MessageContext.canonicalString verified (List.map Js.toLowerCase hs)
  = match MessageContext.canonicalString signed hs with
    | Ok payload => Ok payload
    | Err e => MessageContext.canonicalString verified (List.map Js.toLowerCase hs)
    end.
Proof.
  intros Hcarry Hnot.
  destruct (MessageContext.canonicalString signed hs) as [payload|e] eqn:Hp; [|done].
  unfold MessageContext.canonicalString in *.
  destruct (mapR (MessageContext.canonicalLine signed) hs) as [lines|e] eqn:Hl; [|done].
  replace (mapR (MessageContext.canonicalLine verified) (List.map Js.toLowerCase hs))
    with (Ok (A:=list string) lines); [done|].
  clear Hp. revert lines Hl Hnot. induction hs as [|h hs IH]; intros lines Hl Hnot.
  - by inversion Hl.
  - cbn [mapR List.map] in *.
    destruct (MessageContext.canonicalLine signed h) as [l|] eqn:Hline; [|done].
    cbn [mbind Result_bind] in Hl.
    destruct (mapR (MessageContext.canonicalLine signed) hs) as [ls|] eqn:Hrest; [|done].
    cbn [mbind Result_bind] in Hl. inversion Hl; subst.
    rewrite <- (IH ls eq_refl) by (intros Hin; apply Hnot; by right).
    assert (Hh : MessageContext.canonicalLine verified (Js.toLowerCase h) = Ok l).
    { unfold MessageContext.canonicalLine in Hline |- *.
      rewrite !toLowerCase_idem.
      rewrite (getHeader_carried signed verified s); [|done|].
      - by destruct (MessageContext.getHeader signed (Js.toLowerCase h)) as [[vs|]|].
      - rewrite toLowerCase_idem. intros Heq. apply Hnot. by left. }
    rewrite Hh. reflexivity.
Qed.

Lemma canonicalString_total (ctx : MessageContext.t) (hs : list string) :
  Forall (fun h => exists vs, MessageContext.getHeader ctx h = Ok (Some vs)) hs ->
  exists payload, MessageContext.canonicalString ctx hs = Ok payload.
Proof.
  intros Hall. unfold MessageContext.canonicalString.
  assert (H : exists lines, mapR (MessageContext.canonicalLine ctx) hs = Ok lines).
  { induction Hall as [|h hs [vs Hh] _ [lines IH]]; [by exists []|].
    cbn [mapR]. rewrite (canonicalLine_present _ _ _ Hh), IH. by eexists. }
  destruct H as [lines ->]. by eexists.
Qed.

Lemma new_ok (id : string) (sa : SignatureAlgorithm) (hasher : DigestFactory)
    (digest : DigestAlgorithm) (config : SecretKeyConfig) (opts : Obj.t)
    (sk : SignatureKey.t) :
  HmacSignatureKey.new id sa hasher digest config opts = Ok sk ->
  exists k,
    SignatureKey.id sk = id
    /\ SignatureKey.signatureAlgorithm sk = sa
    /\ SignatureKey.options sk = opts
    /\ SignatureKey.sign sk
       = HmacSignatureKey.sign (Crypto.hmac (macAlgorithm config) (keyBytes k))
    /\ SignatureKey.verify sk
       = HmacSignatureKey.verify (Crypto.hmac (macAlgorithm config) (keyBytes k)).
Proof.
  unfold HmacSignatureKey.new, HmacSignatureKey.createHmacFactory.
  destruct (key config) as [k|]; [|done].
  destruct (keyType k); cbn [mbind Result_bind]; [|done|done].
  intros [= <-]. by exists k.
Qed.

Lemma missing_none (refHeaders required : list string) :
  Forall (fun r => In r refHeaders) required ->
  List.filter (fun header => negb (Js.includes refHeaders header)) required = [].
Proof.
  intros H. apply filter_none. eapply List.Forall_impl; [|exact H].
  intros r Hr. apply negb_false_iff. by apply includes_In.
Qed.

(** C6 (amended). Sign-then-verify round-trips to true for a key built
    by [HmacSignatureKey.new] under these conditions: the key identifier
    holds no comma; the signed header list (the names tagged sign or
    true, plus [digest] when [calculateDigest] is truthy) is not empty,
    and each of its names is non-empty and free of white space and
    commas; [signature] is not among the lower-cased signed names; every
    name tagged verify or true is among the lower-cased signed names;
    and the context has a value for every signed name. Then signing
    returns the formatted string over the MAC of the canonical string,
    [Signature.fromHeader] parses that string back into the record with
    the same key identifier, scheme, lower-cased header list and MAC,
    and verifying any context that is the signed one with that string
    as its sole signature candidate returns true. *)
Theorem sign_then_verify :
  forall (now : Date.t) (id : string) (sa : SignatureAlgorithm) (hasher : DigestFactory)
         (digest : DigestAlgorithm) (config : SecretKeyConfig) (opts : Obj.t)
         (sk : SignatureKey.t) (ctx : MessageContext.t) (headerSpec : JsVal)
         (listed required : list string),
    HmacSignatureKey.new id sa hasher digest config opts = Ok sk ->
    occurs "," id = false ->
    SignatureKey.headerList headerSpec Sign = Ok listed ->
    SignatureKey.headerList headerSpec Verify = Ok required ->
    signedHeaders sk listed <> [] ->
    Forall wireSafe (signedHeaders sk listed) ->
    ~ In "signature" (List.map Js.toLowerCase (signedHeaders sk listed)) ->
    Forall (fun r => In r (List.map Js.toLowerCase (signedHeaders sk listed))) required ->
    Forall (fun h => exists vs, MessageContext.getHeader ctx h = Ok (Some vs))
           (signedHeaders sk listed) ->
    forall tr,
    exists payload mac,
      let s := SignatureKey.format id (Enum.signatureAlgorithm sa)
                 (signedHeaders sk listed) (Buffer.toBase64 mac) in
      MessageContext.canonicalString ctx (signedHeaders sk listed) = Ok payload
      /\ SignatureKey.signMessage sk ctx headerSpec tr
         = (Ok s, tr ++ [Effect.MacComputed (Buffer.fromUtf8 payload)])
      /\ Signature.fromHeader now s None
         = Ok {| Signature.keyId := id;
                 Signature.signature := mac;
                 Signature.headers := List.map Js.toLowerCase (signedHeaders sk listed);
                 Signature.signatureAlgorithm := Some sa;
                 Signature.created := None;
                 Signature.expires := None;
                 Signature.observedAt := now |}
      /\ forall verified tr',
          carriesSignature ctx verified s ->
          SignatureKey.verifyMessage now sk verified headerSpec tr'
          = (Ok true, tr' ++ [Effect.MacComputed (Buffer.fromUtf8 payload)]).
Proof.
  intros now id sa hasher digest config opts sk ctx headerSpec listed required
         Hnew Hid Hlisted Hrequired Hne Hsafe Hnosig Hpolicy Hvalues tr.
  destruct (new_ok _ _ _ _ _ _ _ Hnew) as (k & Hkid & Hksa & _ & Hsign & Hverify).
  destruct (canonicalString_total ctx _ Hvalues) as [payload Hpayload].
  set (hmac := Crypto.hmac (macAlgorithm config) (keyBytes k)) in *.
  set (mac := hmac (Buffer.fromUtf8 payload)).
  assert (Hmac : mac <> []).
  { intros E. pose proof (hmac_nonempty (macAlgorithm config) (keyBytes k)
                            (Buffer.fromUtf8 payload)) as Hn.
    fold hmac in Hn. fold mac in Hn. by rewrite E in Hn. }
  exists payload, mac. cbv zeta.
  assert (Hparse := fromHeader_format now id sa (signedHeaders sk listed) mac
                      Hid Hne Hsafe Hmac).
  split; [exact Hpayload|]. split; [|split; [exact Hparse|]].
  - rewrite (signMessage_eval sk ctx headerSpec tr listed payload Hlisted Hpayload).
    rewrite Hsign, hmac_sign_eval, Hkid, Hksa. reflexivity.
  - intros verified tr' Hcarry.
    assert (Hsig : MessageContext.getSignature now verified None
                   = Ok (Some {| Signature.keyId := id;
                                 Signature.signature := mac;
                                 Signature.headers :=
                                   List.map Js.toLowerCase (signedHeaders sk listed);
                                 Signature.signatureAlgorithm := Some sa;
                                 Signature.created := None;
                                 Signature.expires := None;
                                 Signature.observedAt := now |})).
    { rewrite (getSignature_carried now ctx verified _ Hcarry), Hparse. reflexivity. }
    rewrite (verifyMessage_eval now sk verified headerSpec tr' _ payload Hsig).
    + cbn [Signature.signature Signature.headers].
      rewrite Hverify, hmac_verify_eval. fold hmac. fold mac.
      rewrite Nat.eqb_refl, buffer_eqb_refl, Hrequired. cbv zeta.
      rewrite (missing_none _ _ Hpolicy). reflexivity.
    + cbn [Signature.signatureAlgorithm]. rewrite Hksa. by apply signatureAlgorithmEqb_eq.
    + cbn [Signature.headers].
      rewrite (canonicalString_carried ctx verified _ _ Hcarry Hnosig), Hpayload.
      reflexivity.
Qed.

Lemma carriesSignature_postRequest (s : string) :
  carriesSignature (Example.postRequest None) (Example.postRequest (Some s)) s.
Proof.
  split; [reflexivity|]. split; [reflexivity|]. split; [reflexivity|]. split.
  - intros name Hname.
    unfold Example.postRequest, Example.messageOf, MessageContext.message,
      HttpMessage.getHeader.
    cbn [app List.find fst snd].
    destruct (String.eqb "content-type" name); [reflexivity|].
    destruct (String.eqb "host" name); [reflexivity|].
    destruct (String.eqb "digest" name); [reflexivity|].
    destruct (String.eqb_spec "signature" name) as [E|_]; [|reflexivity].
    by destruct Hname.
  - intros values H. discriminate H.
Qed.

Lemma sign_then_verify_witness :
  exists s payload,
    SignatureKey.signRequest Example.defaultKey (Example.postRequest None) []
    = (Ok s, [Effect.MacComputed (Buffer.fromUtf8 payload)])
    /\ isOk (Signature.fromHeader Example.now s None) = true
    /\ SignatureKey.verifyRequest Example.now Example.defaultKey
         (Example.postRequest (Some s)) []
       = (Ok true, [Effect.MacComputed (Buffer.fromUtf8 payload)]).
Proof.
  pose (spec := JObj [("(request-target)", JBool true); ("host", JBool true)]).
  pose (listed := ["(request-target)"; "host"]).
  assert (E : signedHeaders Example.defaultKey listed
              = ["(request-target)"; "host"; "digest"]) by (vm_compute; reflexivity).
  assert (Hnew : HmacSignatureKey.new "test" HS2019 (Crypto.hash SHA256) SHA256
                   {| macAlgorithm := HMAC_SHA256_ALG; key := Some Example.secretKey |}
                   (SignatureKey.options Example.defaultKey)
                 = Ok Example.defaultKey) by reflexivity.
  assert (Hne : signedHeaders Example.defaultKey listed <> [])
    by (rewrite E; discriminate).
  assert (Hsafe : Forall wireSafe (signedHeaders Example.defaultKey listed)).
  { rewrite E. repeat constructor. }
  assert (Hnosig : ~ In "signature"
                       (List.map Js.toLowerCase (signedHeaders Example.defaultKey listed))).
  { rewrite E. cbv. intros [H|[H|[H|[]]]]; discriminate H. }
  assert (Hpolicy : Forall (fun r => In r (List.map Js.toLowerCase
                                              (signedHeaders Example.defaultKey listed)))
                      listed).
  { rewrite E. constructor; [by left|].
    constructor; [right; by left|]. constructor. }
  assert (Hvalues : Forall (fun h => exists vs,
                                MessageContext.getHeader (Example.postRequest None) h
                                = Ok (Some vs))
                      (signedHeaders Example.defaultKey listed)).
  { rewrite E. repeat constructor; eexists; vm_compute; reflexivity. }
  destruct (sign_then_verify Example.now "test" HS2019 (Crypto.hash SHA256) SHA256
              {| macAlgorithm := HMAC_SHA256_ALG; key := Some Example.secretKey |}
              (SignatureKey.options Example.defaultKey) Example.defaultKey
              (Example.postRequest None) spec listed listed
              Hnew eq_refl eq_refl eq_refl Hne Hsafe Hnosig Hpolicy Hvalues [])
    as (payload & mac & _ & Hsign & Hparse & Hverify).
  eexists. exists payload. split; [exact Hsign|]. split.
  - rewrite Hparse. reflexivity.
  - apply (Hverify _ []). apply carriesSignature_postRequest.
Defined.

(** C6 as stated fails. With the default empty response header set and
    [calculateDigest] off, [signResponse] emits an empty [headers]
    parameter, which [Signature.fromHeader] rejects, so [verifyResponse]
    raises. With a name tagged verify that is not tagged sign,
    [signRequest] omits it and [verifyRequest] with the same key reports
    it as missing. In both the context has a value for every name of
    the effective sign set. *)
Lemma sign_then_verify_counterexample :
  (SignatureKey.headerList
     (Obj.get (SignatureKey.options Example.plainResponseKey) "responseHeaders") Sign
   = Ok []
   /\ Obj.truthy (Obj.get (SignatureKey.options Example.plainResponseKey) "calculateDigest")
      = false
   /\ SignatureKey.signResponse Example.plainResponseKey (Example.response None) []
      = (Ok (Js.dq "keyId='test',algorithm='hs2019',headers='',signature='G0DQZV2watuGCoThFkqS1O0/ssm8mejnt3gvQ6H2lGk='"),
         [Effect.MacComputed []])
   /\ SignatureKey.verifyResponse Example.now Example.plainResponseKey
        (Example.response
           (Some (Js.dq "keyId='test',algorithm='hs2019',headers='',signature='G0DQZV2watuGCoThFkqS1O0/ssm8mejnt3gvQ6H2lGk='")))
        []
      = (Err (VerificationError "malformed header list in signature string"), []))
  /\ (SignatureKey.headerList
        (Obj.get (SignatureKey.options Example.asymmetricKey) "requestHeaders") Sign
      = Ok ["host"]
      /\ MessageContext.getHeader (Example.postRequest None) "host" = Ok (Some ["foobar.com"])
      /\ SignatureKey.signRequest Example.asymmetricKey (Example.postRequest None) []
         = (Ok Example.hostOnlySignature,
            [Effect.MacComputed (Buffer.fromUtf8 "host: foobar.com")])
      /\ SignatureKey.verifyRequest Example.now Example.asymmetricKey
           (Example.postRequest (Some Example.hostOnlySignature)) []
         = (Err (VerificationError "signature missing required headers: date"),
            [Effect.MacComputed (Buffer.fromUtf8 "host: foobar.com")])).
Proof.
  split.
  - split; [vm_compute; reflexivity|]. split; [vm_compute; reflexivity|].
    split; vm_compute; reflexivity.
  - split; [vm_compute; reflexivity|]. split; [vm_compute; reflexivity|].
    split; vm_compute; reflexivity.
Qed.
